(** * Backtester101: trade execution, portfolio accounting and performance metrics

    A shallow embedding of [backtester/backtester.py] and
    [backtester/performance.py].

    The Python code is duck-typed over its numbers: the same text runs on
    Python floats and on the [numpy.float64] scalars that pandas hands out.
    The embedding keeps that: every function is written once, over an
    interface [PyFloat] of the arithmetic the source uses, and the interface
    has two instances:

    - [binary64], the kernel's IEEE 754 double precision numbers, on which the
      functions run as the program does;
    - [xreal], the real numbers extended with the two infinities and a
      not-a-number value, on which the algebraic properties are proved
      (exact arithmetic, no rounding, a single zero).

    An instance also says which scalars the numbers are: the
    [numpy.float64] scalars of a numeric frame, whose division by zero returns
    an infinity or a not-a-number value, or Python's own [float], whose
    division by zero raises [ZeroDivisionError].  The two instances above are
    numpy scalars; [python_binary64] and [python_xreal] are the same numbers
    as Python floats.  What a call can raise (a missing dictionary key, a list
    index out of range, a division by zero) is carried by the [result] type.

    Embedded: [Backtester.__init__], [calculate_commission], [execute_trade],
    [update_portfolio], [backtest], and from the performance module
    [calculate_total_return], [calculate_annualized_volatility],
    [calculate_sharpe_ratio], [calculate_sortino_ratio] and
    [calculate_maximum_drawdown]; then, further down and on the extended
    reals only for want of a power on doubles, [calculate_annualized_return]
    and [calculate_performance] up to its printing.  Left out: the
    formatting and the plot of [calculate_performance] and
    [plot_performance]. *)

From Stdlib Require Import Reals Lra ZArith Sorted.
From Stdlib Require PrimFloat Uint63.
From stdpp Require Import gmap strings list.

Set Warnings "-inexact-float".

(** ** Numbers *)

Class PyFloat (F : Type) := {
  fadd : F → F → F;
  fsub : F → F → F;
  fmul : F → F → F;
  fdiv : F → F → F;
  fsqrt : F → F;
  fltb : F → F → bool;
  feqb : F → F → bool;
  fnan : F;
  of_Z : Z → F;
  zero_division : bool
}.

Declare Scope py_scope.
Delimit Scope py_scope with py.
Infix "+" := fadd : py_scope.
Infix "-" := fsub : py_scope.
Infix "*" := fmul : py_scope.
Infix "/" := fdiv : py_scope.
Notation "x <? y" := (fltb x y) (at level 70, no associativity) : py_scope.
Notation "x >? y" := (fltb y x) (at level 70, no associativity) : py_scope.
Notation "x =? y" := (feqb x y) (at level 70, no associativity) : py_scope.

(** Python's builtin [max(a, b)]: the first argument unless the second is
    strictly greater. *)
Definition py_max {F} `{PyFloat F} (a b : F) : F :=
  if (b >? a)%py then b else a.

(** [x != x], how numpy and pandas recognise a not-a-number value. *)
Definition is_nan {F} `{PyFloat F} (x : F) : bool := negb (x =? x)%py.

(** *** IEEE 754 binary64 *)

Definition binary64 : Type := PrimFloat.float.

#[export] Instance binary64_float : PyFloat binary64 := {
  fadd := PrimFloat.add;
  fsub := PrimFloat.sub;
  fmul := PrimFloat.mul;
  fdiv := PrimFloat.div;
  fsqrt := PrimFloat.sqrt;
  fltb := PrimFloat.ltb;
  feqb := PrimFloat.eqb;
  fnan := PrimFloat.nan;
  of_Z := fun z =>
    if (z <? 0)%Z then PrimFloat.opp (PrimFloat.of_uint63 (Uint63.of_Z (- z)))
    else PrimFloat.of_uint63 (Uint63.of_Z z);
  zero_division := false
}.

Definition python_binary64 : PyFloat binary64 := {|
  fadd := PrimFloat.add;
  fsub := PrimFloat.sub;
  fmul := PrimFloat.mul;
  fdiv := PrimFloat.div;
  fsqrt := PrimFloat.sqrt;
  fltb := PrimFloat.ltb;
  feqb := PrimFloat.eqb;
  fnan := PrimFloat.nan;
  of_Z := of_Z (F := binary64);
  zero_division := true
|}.

(** *** Extended reals *)

Inductive xreal : Type :=
  | Finite (r : R)
  | PInf
  | NInf
  | NaN.

Definition Rltb (x y : R) : bool := if Rlt_dec x y then true else false.

(** The value an operation takes according to the sign of [r]. *)
Definition by_sign {A} (r : R) (pos zero neg : A) : A :=
  if Rlt_dec 0 r then pos else if Rlt_dec r 0 then neg else zero.

Definition xopp (x : xreal) : xreal :=
  match x with
  | Finite r => Finite (- r)
  | PInf => NInf
  | NInf => PInf
  | NaN => NaN
  end.

Definition xadd (x y : xreal) : xreal :=
  match x, y with
  | NaN, _ | _, NaN => NaN
  | Finite a, Finite b => Finite (a + b)
  | PInf, NInf | NInf, PInf => NaN
  | PInf, _ | _, PInf => PInf
  | NInf, _ | _, NInf => NInf
  end.

Definition xsub (x y : xreal) : xreal := xadd x (xopp y).

Definition xmul (x y : xreal) : xreal :=
  match x, y with
  | NaN, _ | _, NaN => NaN
  | Finite a, Finite b => Finite (a * b)
  | Finite a, PInf | PInf, Finite a => by_sign a PInf NaN NInf
  | Finite a, NInf | NInf, Finite a => by_sign a NInf NaN PInf
  | PInf, PInf | NInf, NInf => PInf
  | PInf, NInf | NInf, PInf => NInf
  end.

Definition xdiv (x y : xreal) : xreal :=
  match x, y with
  | NaN, _ | _, NaN => NaN
  | Finite a, Finite b =>
      if Req_dec_T b 0 then by_sign a PInf NaN NInf else Finite (a / b)
  | Finite _, (PInf | NInf) => Finite 0
  | PInf, Finite b => by_sign b PInf PInf NInf
  | NInf, Finite b => by_sign b NInf NInf PInf
  | (PInf | NInf), (PInf | NInf) => NaN
  end.

Definition xsqrt (x : xreal) : xreal :=
  match x with
  | Finite r => if Rlt_dec r 0 then NaN else Finite (sqrt r)
  | PInf => PInf
  | NInf | NaN => NaN
  end.

Definition xltb (x y : xreal) : bool :=
  match x, y with
  | NaN, _ | _, NaN => false
  | Finite a, Finite b => Rltb a b
  | NInf, (Finite _ | PInf) => true
  | Finite _, PInf => true
  | _, _ => false
  end.

Definition xeqb (x y : xreal) : bool :=
  match x, y with
  | Finite a, Finite b => if Req_dec_T a b then true else false
  | PInf, PInf | NInf, NInf => true
  | _, _ => false
  end.

#[export] Instance xreal_float : PyFloat xreal := {
  fadd := xadd;
  fsub := xsub;
  fmul := xmul;
  fdiv := xdiv;
  fsqrt := xsqrt;
  fltb := xltb;
  feqb := xeqb;
  fnan := NaN;
  of_Z := fun z => Finite (IZR z);
  zero_division := false
}.

Definition python_xreal : PyFloat xreal := {|
  fadd := xadd;
  fsub := xsub;
  fmul := xmul;
  fdiv := xdiv;
  fsqrt := xsqrt;
  fltb := xltb;
  feqb := xeqb;
  fnan := NaN;
  of_Z := fun z => Finite (IZR z);
  zero_division := true
|}.

(** ** What a Python call does: return or raise *)

Inductive exn : Set :=
  | KeyError
  | IndexError
  | ZeroDivisionError
  | RuntimeError.

#[export] Instance exn_eq_dec : EqDecision exn.
Proof. solve_decision. Defined.

Inductive result (A : Type) : Type :=
  | Ok (a : A)
  | Raise (e : exn).
Arguments Ok {A} a.
Arguments Raise {A} e.

#[export] Instance result_ret : MRet result := λ A a, Ok a.
#[export] Instance result_bind : MBind result := λ A B f m,
  match m with
  | Ok a => f a
  | Raise e => Raise e
  end.

(** [x / y] on two scalars. *)
Definition truediv {F} `{PyFloat F} (x y : F) : result F :=
  if zero_division && (y =? of_Z 0)%py then Raise ZeroDivisionError
  else Ok (x / y)%py.

(** [try: body / except e: handler]. *)
Definition try_except {A} (body : result A) (e : exn) (handler : result A)
    : result A :=
  match body with
  | Ok a => Ok a
  | Raise e' => if decide (e' = e) then handler else Raise e'
  end.

(** [d[k]] on a dictionary. *)
Definition getitem {V} (d : gmap string V) (k : string) : result V :=
  match d !! k with
  | Some v => Ok v
  | None => Raise KeyError
  end.

(** The position a Python list index denotes: negative indices count from
    the end, anything outside [-len, len) is an error. *)
Definition list_index {A} (l : list A) (i : Z) : result nat :=
  let n := Z.of_nat (length l) in
  if decide (0 ≤ i < n)%Z then Ok (Z.to_nat i)
  else if decide (- n ≤ i < 0)%Z then Ok (Z.to_nat (n + i))
  else Raise IndexError.

(** Monadic left fold: a [for] loop whose body may raise. *)
Fixpoint for_each {S X} (body : S → X → result S) (xs : list X) (s : S)
    : result S :=
  match xs with
  | [] => Ok s
  | x :: xs' => s' ← body s x; for_each body xs' s'
  end.

(** Short-circuit [a and b]: [b] is only evaluated when [a] holds. *)
Definition py_and (a : bool) (b : result bool) : result bool :=
  if a then b else Ok false.

(** ** pandas reductions used by the source

    [Series.std] (sample standard deviation, [ddof = 1]), [Series.cummax] and
    [Series.min], each skipping not-a-number entries as pandas does by
    default.  Sums are taken left to right; numpy adds longer arrays
    pairwise, which is the same sum in exact arithmetic and can differ in
    the last digits on doubles. *)

Section Pandas.
Context {F : Type} `{PyFloat F}.
Local Open Scope py_scope.

Definition notna (s : list F) : list F :=
  List.filter (λ x, negb (is_nan x)) s.

Definition pd_sum (s : list F) : F := fold_left fadd s (of_Z 0).

Definition pd_std (s : list F) : F :=
  let vals := notna s in
  let count := length vals in
  if (count <=? 1)%nat then fnan
  else
    let avg := pd_sum vals / of_Z (Z.of_nat count) in
    let sqr := map (λ x, (avg - x) * (avg - x)) vals in
    fsqrt (pd_sum sqr / of_Z (Z.of_nat (count - 1))).

Fixpoint cummax_from (m : option F) (s : list F) : list F :=
  match s with
  | [] => []
  | x :: s' =>
      if is_nan x then x :: cummax_from m s'
      else
        let m' := match m with
                  | None => x
                  | Some y => if x >? y then x else y
                  end in
        m' :: cummax_from (Some m') s'
  end.

Definition pd_cummax (s : list F) : list F := cummax_from None s.

Definition pd_min (s : list F) : F :=
  match notna s with
  | [] => fnan
  | x :: s' => fold_left (λ m y, if y <? m then y else m) s' x
  end.
End Pandas.

(** ** backtester.py *)

(** The per-asset dictionary [{"cash", "positions", "position_value",
    "total_value"}]. *)
Record AssetState (F : Type) : Type := mkAssetState {
  cash : F;
  positions : F;
  position_value : F;
  total_value : F
}.
Arguments mkAssetState {F}.
Arguments cash {F}.
Arguments positions {F}.
Arguments position_value {F}.
Arguments total_value {F}.

(** One row of an asset's frame; rows come in index (date) order. *)
Record Row (F : Type) : Type := mkRow {
  close : F;
  signal : Z
}.
Arguments mkRow {F}.
Arguments close {F}.
Arguments signal {F}.

(** The argument of [backtest]: one frame, or a dictionary of frames, kept
    in insertion order as Python dictionaries are (the keys of a dictionary
    are distinct). *)
Inductive Data (F : Type) : Type :=
  | Frame (df : list (Row F))
  | Frames (d : list (string * list (Row F))).
Arguments Frame {F}.
Arguments Frames {F}.

Record Backtester (F : Type) : Type := mkBacktester {
  initial_capital : F;
  commission_pct : F;
  commission_fixed : F;
  assets_data : gmap string (AssetState F);
  portfolio_history : gmap string (list F);
  daily_portfolio_values : list F
}.
Arguments mkBacktester {F}.
Arguments initial_capital {F}.
Arguments commission_pct {F}.
Arguments commission_fixed {F}.
Arguments assets_data {F}.
Arguments portfolio_history {F}.
Arguments daily_portfolio_values {F}.

Section Backtester.
Context {F : Type} `{PyFloat F}.
Local Open Scope py_scope.

Definition set_cash (v : F) (st : AssetState F) : AssetState F :=
  mkAssetState v (positions st) (position_value st) (total_value st).
Definition set_positions (v : F) (st : AssetState F) : AssetState F :=
  mkAssetState (cash st) v (position_value st) (total_value st).
Definition set_position_value (v : F) (st : AssetState F) : AssetState F :=
  mkAssetState (cash st) (positions st) v (total_value st).
Definition set_total_value (v : F) (st : AssetState F) : AssetState F :=
  mkAssetState (cash st) (positions st) (position_value st) v.

Definition with_assets_data (d : gmap string (AssetState F))
    (self : Backtester F) : Backtester F :=
  mkBacktester (initial_capital self) (commission_pct self)
    (commission_fixed self) d (portfolio_history self)
    (daily_portfolio_values self).
Definition with_portfolio_history (h : gmap string (list F))
    (self : Backtester F) : Backtester F :=
  mkBacktester (initial_capital self) (commission_pct self)
    (commission_fixed self) (assets_data self) h
    (daily_portfolio_values self).
Definition with_daily_portfolio_values (l : list F)
    (self : Backtester F) : Backtester F :=
  mkBacktester (initial_capital self) (commission_pct self)
    (commission_fixed self) (assets_data self) (portfolio_history self) l.

(** [self.assets_data[asset][field] = f(self.assets_data[asset])]. *)
Definition modify_asset (self : Backtester F) (asset : string)
    (f : AssetState F → AssetState F) : result (Backtester F) :=
  st ← getitem (assets_data self) asset;
  mret (with_assets_data (<[asset := f st]> (assets_data self)) self).

(** [Backtester.__init__]. *)
Definition init (initial_capital commission_pct commission_fixed : F)
    : Backtester F :=
  mkBacktester initial_capital commission_pct commission_fixed ∅ ∅ [].

Definition calculate_commission (self : Backtester F) (trade_value : F) : F :=
  py_max (trade_value * commission_pct self) (commission_fixed self).

Definition execute_trade (self : Backtester F) (asset : string)
    (signal : Z) (price : F) : result (Backtester F) :=
  buy ← py_and (signal >? 0)%Z
         (st ← getitem (assets_data self) asset; mret (cash st >? of_Z 0));
  if buy : bool then
    st ← getitem (assets_data self) asset;
    let trade_value := cash st in
    let commission := calculate_commission self trade_value in
    shares_to_buy ← truediv (trade_value - commission) price;
    self ← modify_asset self asset
             (λ st, set_positions (positions st + shares_to_buy) st);
    modify_asset self asset (λ st, set_cash (cash st - trade_value) st)
  else
    sell ← py_and (signal <? 0)%Z
             (st ← getitem (assets_data self) asset;
              mret (positions st >? of_Z 0));
    if sell : bool then
      st ← getitem (assets_data self) asset;
      let trade_value := positions st * price in
      let commission := calculate_commission self trade_value in
      self ← modify_asset self asset
               (λ st, set_cash (cash st + (trade_value - commission)) st);
      modify_asset self asset (set_positions (of_Z 0))
    else mret self.

Definition update_portfolio (self : Backtester F) (asset : string)
    (price : F) : result (Backtester F) :=
  self ← modify_asset self asset
           (λ st, set_position_value (positions st * price) st);
  self ← modify_asset self asset
           (λ st, set_total_value (cash st + position_value st) st);
  h ← getitem (portfolio_history self) asset;
  st ← getitem (assets_data self) asset;
  mret (with_portfolio_history
          (<[asset := h ++ [total_value st]]> (portfolio_history self)) self).

(** The body of the inner loop of [backtest], for one row of [df]. *)
Definition backtest_row (asset : string) (df : list (Row F))
    (self : Backtester F) (row : Row F) : result (Backtester F) :=
  self ← execute_trade self asset (signal row) (close row);
  self ← update_portfolio self asset (close row);
  if (length (daily_portfolio_values self) <? length df)%nat then
    st ← getitem (assets_data self) asset;
    mret (with_daily_portfolio_values
            (daily_portfolio_values self ++ [total_value st]) self)
  else
    h ← getitem (portfolio_history self) asset;
    i ← list_index (daily_portfolio_values self) (Z.of_nat (length h) - 1);
    st ← getitem (assets_data self) asset;
    mret (with_daily_portfolio_values
            (alter (λ v, v + total_value st) i (daily_portfolio_values self))
            self).

(** The body of the outer loop of [backtest], for one entry of the
    dictionary [data], of [n] entries. *)
Definition backtest_asset (n : nat) (self : Backtester F)
    (entry : string * list (Row F)) : result (Backtester F) :=
  let '(asset, df) := entry in
  c ← truediv (initial_capital self) (of_Z (Z.of_nat n));
  let self :=
    with_assets_data
      (<[asset := mkAssetState c (of_Z 0) (of_Z 0) (of_Z 0)]>
         (assets_data self)) self in
  let self :=
    with_portfolio_history (<[asset := []]> (portfolio_history self)) self in
  for_each (backtest_row asset df) df self.

Definition backtest (self : Backtester F) (data : Data F)
    : result (Backtester F) :=
  let data := match data with
              | Frame df => [("SINGLE_ASSET"%string, df)]
              | Frames d => d
              end in
  for_each (backtest_asset (length data)) data self.
End Backtester.

(** ** performance.py

    The divisions between scalars are [truediv]; the division inside
    [calculate_maximum_drawdown] is pandas' elementwise one, which raises
    nothing. *)

Section Performance.
Context {F : Type} `{PyFloat F}.
Local Open Scope py_scope.

Definition calculate_total_return (final_portfolio_value initial_capital : F)
    : result F :=
  q ← truediv final_portfolio_value initial_capital;
  mret (q - of_Z 1).

Definition calculate_annualized_volatility (daily_returns : list F) : F :=
  pd_std daily_returns * fsqrt (of_Z 252).

Definition calculate_sharpe_ratio
    (annualized_return annualized_volatility risk_free_rate : F)
    : result F :=
  try_except
    (truediv (annualized_return - risk_free_rate) annualized_volatility)
    RuntimeError
    (Ok fnan).

Definition calculate_sortino_ratio (daily_returns : list F)
    (annualized_return risk_free_rate : F) : result F :=
  let negative_returns := List.filter (λ r, r <? of_Z 0) daily_returns in
  let downside_volatility := pd_std negative_returns * fsqrt (of_Z 252) in
  if downside_volatility >? of_Z 0
  then truediv (annualized_return - risk_free_rate) downside_volatility
  else mret fnan.

Definition calculate_maximum_drawdown (portfolio_values : list F) : F :=
  let drawdown :=
    map (λ q, q - of_Z 1)
      (zip_with fdiv portfolio_values (pd_cummax portfolio_values)) in
  pd_min drawdown.
End Performance.

(** ** What one call does to the asset it names

    [execute_trade] and [update_portfolio] read and write one entry of
    [assets_data]; [traded] and [revalued] are what they leave in it. *)

Section StepDefs.
Context {F : Type} `{PyFloat F}.
Local Open Scope py_scope.

Definition traded (self : Backtester F) (st : AssetState F) (signal : Z)
    (price : F) : AssetState F :=
  if (signal >? 0)%Z && (cash st >? of_Z 0) then
    mkAssetState (cash st - cash st)
      (positions st + (cash st - calculate_commission self (cash st)) / price)
      (position_value st) (total_value st)
  else if (signal <? 0)%Z && (positions st >? of_Z 0) then
    mkAssetState
      (cash st + (positions st * price
                  - calculate_commission self (positions st * price)))
      (of_Z 0) (position_value st) (total_value st)
  else st.

Definition revalued (st : AssetState F) (price : F) : AssetState F :=
  mkAssetState (cash st) (positions st) (positions st * price)
    (cash st + positions st * price).
End StepDefs.

(** ** What a run does to the combined series

    The states an asset goes through, row after row, and how the values of
    one asset enter [daily_portfolio_values]: appended while the series is
    shorter than the asset's frame, added in place afterwards. *)

Section RunDefs.
Context {F : Type} `{PyFloat F}.
Local Open Scope py_scope.

Fixpoint asset_path (self : Backtester F) (st : AssetState F)
    (rows : list (Row F)) : list (AssetState F) :=
  match rows with
  | [] => []
  | row :: rows' =>
      let st' := revalued (traded self st (signal row) (close row)) (close row) in
      st' :: asset_path self st' rows'
  end.

Definition asset_values (self : Backtester F) (st : AssetState F)
    (rows : list (Row F)) : list F :=
  map total_value (asset_path self st rows).

Definition absorb (n : nat) (daily : list F) (k : nat) (v : F) : list F :=
  if (length daily <? n)%nat then daily ++ [v]
  else alter (λ x, x + v) k daily.

Fixpoint absorb_all (n : nat) (daily : list F) (k : nat) (vs : list F)
    : list F :=
  match vs with
  | [] => daily
  | v :: vs' => absorb_all n (absorb n daily k v) (S k) vs'
  end.

Definition fresh_asset (self : Backtester F) (n : nat) : AssetState F :=
  mkAssetState (initial_capital self / of_Z (Z.of_nat n))
    (of_Z 0) (of_Z 0) (of_Z 0).

Definition absorb_asset (self : Backtester F) (n : nat) (daily : list F)
    (entry : string * list (Row F)) : list F :=
  absorb_all (length entry.2) daily 0
    (asset_values self (fresh_asset self n) entry.2).
End RunDefs.

(** ** The program on binary64 *)

Module Run.
Import PrimFloat.

Definition default : Backtester binary64 := init 10000%float 0.001%float 1%float.

Definition values (r : result (Backtester binary64)) : option (list binary64) :=
  match r with
  | Ok self => Some (daily_portfolio_values self)
  | Raise _ => None
  end.

(** The scenario worked out in the specification: buy at 100, hold, sell
    at 121, and the combined series it gives. *)
Definition scenario : list (Row binary64) :=
  [mkRow 100%float 1; mkRow 100%float 1; mkRow 110%float 1;
   mkRow 121%float (-1)].
Definition scenario_values : list binary64 :=
  [9990%float; 9990%float; 10989%float; 12075.812100000001%float].

(** A frame of one row: a buy signal at a close price of 0. *)
Definition free_share : list (Row binary64) := [mkRow 0%float 1].

(** A frame of one row: a buy signal at a close price of -100, and the
    combined series it gives. *)
Definition negative_close : list (Row binary64) := [mkRow (-100)%float 1].
Definition negative_close_values : list binary64 := [9990%float].

(** A capital of 1000 with the default fees, and a frame of one row: a buy
    signal at a close price of 100. *)
Definition small : Backtester binary64 := init 1000%float 0.001%float 1%float.
Definition one_buy : list (Row binary64) := [mkRow 100%float 1].
Definition whole_left : list binary64 := [999%float].
Definition halves_left : list binary64 := [998%float].
End Run.

(** ** Concrete accounts *)

(** A backtester with the default fees, holding [c] in cash and [p] shares
    of one asset. *)
Definition account (c p : R) : Backtester xreal :=
  with_assets_data
    {["AAPL"%string := mkAssetState (Finite c) (Finite p) (Finite 0) (Finite 0)]}
    (init (Finite 10000) (Finite 0.001) (Finite 1)).

(** A record of a strategy that stays out of the market: a positive close
    price and a non-positive signal. *)
Definition flat_row (row : Row xreal) : Prop :=
  ∃ pr : R, close row = Finite pr ∧ (0 < pr)%R ∧ (signal row ≤ 0)%Z.

(** ** Drawdown, as the specification words it

    The running maximum at step [t] is the greatest value seen up to and
    including [t]; the drawdown at [t] is [value[t] / running_max - 1]; the
    maximum drawdown is the least of them. *)

Definition running_max (vs : list R) (t : nat) (m : R) : Prop :=
  m ∈ take (S t) vs ∧ ∀ x, x ∈ take (S t) vs → (x <= m)%R.

Definition drawdown_at (vs : list R) (t : nat) (d : R) : Prop :=
  ∃ v m, vs !! t = Some v ∧ running_max vs t m ∧ d = (v / m - 1)%R.

Definition min_drawdown (vs : list R) (d : R) : Prop :=
  (∃ t, drawdown_at vs t d) ∧ ∀ t d', drawdown_at vs t d' → (d <= d')%R.

(** The running maxima [pd_cummax] computes on finite values, from the
    maximum [m] so far. *)
Fixpoint running_maxima (m : R) (vs : list R) : list R :=
  match vs with
  | [] => []
  | x :: vs' => Rmax m x :: running_maxima (Rmax m x) vs'
  end.

Definition drawdowns (vs ms : list R) : list R :=
  zip_with (λ v m, v / m - 1)%R vs ms.

(** ** Downside volatility, as the specification words it

    The sample standard deviation of the negative returns, times the square
    root of 252. *)

Definition sum_list (l : list R) : R := fold_right Rplus 0%R l.

Definition mean (l : list R) : R := (sum_list l / INR (length l))%R.

Definition sample_std (l : list R) : R :=
  sqrt (sum_list (map (λ x, (x - mean l)²)%R l) / (INR (length l) - 1))%R.

Definition negatives (rs : list R) : list R :=
  List.filter (λ r, Rltb r 0) rs.

Definition downside_volatility (rs : list R) : R :=
  (sample_std (negatives rs) * sqrt 252)%R.

(** ** One asset in exact arithmetic

    Cash and shares after a trade, and the values of an asset row after row,
    on finite numbers; rows are pairs of a close price and a signal. *)

Definition tradedR (pct fx : R) (cp : R * R) (signal : Z) (pr : R) : R * R :=
  if (signal >? 0)%Z && Rltb 0 cp.1
  then (0, cp.2 + (cp.1 - Rmax (cp.1 * pct) fx) / pr)%R
  else if (signal <? 0)%Z && Rltb 0 cp.2
  then (cp.1 + (cp.2 * pr - Rmax (cp.2 * pr * pct) fx), 0)%R
  else cp.

Fixpoint valuesR (pct fx : R) (cp : R * R) (rows : list (R * Z)) : list R :=
  match rows with
  | [] => []
  | (pr, signal) :: rows' =>
      let cp' := tradedR pct fx cp signal pr in
      (cp'.1 + cp'.2 * pr)%R :: valuesR pct fx cp' rows'
  end.

Definition finite_row (r : R * Z) : Row xreal := mkRow (Finite r.1) r.2.

(** A record with a positive close price. *)
Definition priced_row (row : Row xreal) : Prop :=
  ∃ pr : R, close row = Finite pr ∧ (0 < pr)%R.

(** The dictionary that gives every name the same frame. *)
Definition copies {F} (names : list string) (df : list (Row F)) : Data F :=
  Frames (map (λ asset, (asset, df)) names).

(** ** Dictionaries of frames and sums of series *)

(** The dictionary [backtest] iterates over: a single frame goes under the
    key ["SINGLE_ASSET"]. *)
Definition entries {F} (data : Data F) : list (string * list (Row F)) :=
  match data with
  | Frame df => [("SINGLE_ASSET"%string, df)]
  | Frames d => d
  end.

(** The entrywise sum of series of one length, taken from left to right. *)
Definition sum_series {F} `{PyFloat F} (hs : list (list F)) : list F :=
  match hs with
  | [] => []
  | h :: hs' => fold_left (zip_with fadd) hs' h
  end.

(** ** The annualized return and the report

    [np.power] is C's [pow]; the kernel's doubles have no such operation, so
    powers are a separate interface, [PyPower], with the extended reals as
    its instance: [Rpower] on a positive base, and the values the C standard
    fixes elsewhere (a zero exponent, a base of 1, a negative base with an
    integral exponent, zeros and infinities). *)

Class PyPower (F : Type) := { fpow : F → F → F }.

Definition is_int (y : R) : bool :=
  if Req_dec_T (IZR (Int_part y)) y then true else false.

Definition is_odd (y : R) : bool := is_int y && Z.odd (Int_part y).

Definition xpow (x y : xreal) : xreal :=
  match y with
  | Finite b =>
      if Req_dec_T b 0 then Finite 1
      else
        match x with
        | Finite a =>
            if Rlt_dec 0 a then Finite (Rpower a b)
            else if Req_dec_T a 0 then (if Rlt_dec 0 b then Finite 0 else PInf)
            else if is_int b
            then Finite ((if Z.odd (Int_part b) then -1 else 1) * Rpower (- a) b)
            else NaN
        | PInf => if Rlt_dec 0 b then PInf else Finite 0
        | NInf =>
            if Rlt_dec 0 b then (if is_odd b then NInf else PInf) else Finite 0
        | NaN => NaN
        end
  | PInf =>
      match x with
      | Finite a =>
          if Req_dec_T (Rabs a) 1 then Finite 1
          else if Rlt_dec (Rabs a) 1 then Finite 0 else PInf
      | PInf | NInf => PInf
      | NaN => NaN
      end
  | NInf =>
      match x with
      | Finite a =>
          if Req_dec_T (Rabs a) 1 then Finite 1
          else if Rlt_dec (Rabs a) 1 then PInf else Finite 0
      | PInf | NInf => Finite 0
      | NaN => NaN
      end
  | NaN =>
      match x with
      | Finite a => if Req_dec_T a 1 then Finite 1 else NaN
      | _ => NaN
      end
  end.

#[export] Instance xreal_power : PyPower xreal := {| fpow := xpow |}.

(** The seven numbers [calculate_performance] prints, before formatting. *)
Record Report (F : Type) : Type := mkReport {
  report_final_value : F;
  report_total_return : F;
  report_annualized_return : F;
  report_annualized_volatility : F;
  report_sharpe_ratio : F;
  report_sortino_ratio : F;
  report_max_drawdown : F
}.
Arguments mkReport {F}.
Arguments report_final_value {F}.
Arguments report_total_return {F}.
Arguments report_annualized_return {F}.
Arguments report_annualized_volatility {F}.
Arguments report_sharpe_ratio {F}.
Arguments report_sortino_ratio {F}.
Arguments report_max_drawdown {F}.

Section Annualized.
Context {F : Type} `{PyFloat F} `{PyPower F}.
Local Open Scope py_scope.

(** [a / b] on two Python [int]s: their quotient as a float. *)
Definition int_truediv (a b : Z) : result F :=
  if (b =? 0)%Z then Raise ZeroDivisionError else Ok (of_Z a / of_Z b).

Definition calculate_annualized_return (total_return : F) (num_days : Z)
    : result F :=
  exponent ← int_truediv 252 num_days;
  mret (fpow (of_Z 1 + total_return) exponent - of_Z 1).

(** [Series.pct_change], on a series without not-a-number entries: the
    first entry has no predecessor. *)
Definition pd_pct_change (s : list F) : list F :=
  match s with
  | [] => []
  | _ :: s' => fnan :: zip_with (λ prev cur, cur / prev - of_Z 1) s s'
  end.

(** [Series.iloc[-1]]. *)
Definition iloc_last (s : list F) : result F :=
  match last s with
  | Some v => Ok v
  | None => Raise IndexError
  end.

(** [calculate_performance], up to the printing and the plot: [None] when
    there is no portfolio history, else the numbers printed. *)
Definition calculate_performance (self : Backtester F)
    : result (option (Report F)) :=
  match daily_portfolio_values self with
  | [] => mret None
  | _ :: _ =>
      let portfolio_values := daily_portfolio_values self in
      let daily_returns := notna (pd_pct_change portfolio_values) in
      final ← iloc_last portfolio_values;
      total_return ← calculate_total_return final (initial_capital self);
      annualized_return ←
        calculate_annualized_return total_return
          (Z.of_nat (length portfolio_values));
      let annualized_volatility :=
        calculate_annualized_volatility daily_returns in
      sharpe_ratio ←
        calculate_sharpe_ratio annualized_return annualized_volatility (of_Z 0);
      sortino_ratio ←
        calculate_sortino_ratio daily_returns annualized_return (of_Z 0);
      let max_drawdown := calculate_maximum_drawdown portfolio_values in
      mret (Some (mkReport final total_return annualized_return
                    annualized_volatility sharpe_ratio sortino_ratio
                    max_drawdown))
  end.
End Annualized.

(** * Properties *)

(** ** One call on the asset it names *)

Section Steps.
Context {F : Type} `{PyFloat F}.
Hypothesis numpy_scalars : zero_division = false.
Local Open Scope py_scope.

Lemma truediv_numpy (x y : F) : truediv x y = Ok (x / y).
Proof. unfold truediv. by rewrite numpy_scalars. Qed.

Lemma getitem_Some {V} (d : gmap string V) k v :
  d !! k = Some v → getitem d k = Ok v.
Proof. intros Hk. unfold getitem. by rewrite Hk. Qed.

Lemma getitem_insert {V} (d : gmap string V) k v :
  getitem (<[k := v]> d) k = Ok v.
Proof. apply getitem_Some, lookup_insert_eq. Qed.

Lemma with_assets_data_id (self : Backtester F) :
  with_assets_data (assets_data self) self = self.
Proof. by destruct self. Qed.

Lemma modify_asset_Some (self : Backtester F) asset st f :
  assets_data self !! asset = Some st →
  modify_asset self asset f
  = Ok (with_assets_data (<[asset := f st]> (assets_data self)) self).
Proof. intros Hk. unfold modify_asset. by rewrite (getitem_Some _ _ _ Hk). Qed.

Lemma modify_asset_insert (self : Backtester F) d asset st f :
  modify_asset (with_assets_data (<[asset := st]> d) self) asset f
  = Ok (with_assets_data (<[asset := f st]> d) self).
Proof.
  rewrite (modify_asset_Some _ asset st); [|apply lookup_insert_eq].
  cbn. by rewrite insert_insert_eq.
Qed.

Lemma execute_trade_traded (self : Backtester F) asset st signal price :
  assets_data self !! asset = Some st →
  execute_trade self asset signal price
  = Ok (with_assets_data
          (<[asset := traded self st signal price]> (assets_data self)) self).
Proof.
  intros Hk. unfold execute_trade, traded.
  rewrite !(getitem_Some _ _ _ Hk). cbn.
  destruct (signal >? 0)%Z; cbn.
  - destruct (cash st >? of_Z 0); cbn.
    + rewrite truediv_numpy; cbn.
      rewrite (modify_asset_Some _ _ _ _ Hk); cbn.
      by rewrite modify_asset_insert.
    + destruct (signal <? 0)%Z; cbn.
      * destruct (positions st >? of_Z 0); cbn.
        -- rewrite (modify_asset_Some _ _ _ _ Hk); cbn.
           by rewrite modify_asset_insert.
        -- by rewrite insert_id, with_assets_data_id.
      * by rewrite insert_id, with_assets_data_id.
  - destruct (signal <? 0)%Z; cbn.
    + destruct (positions st >? of_Z 0); cbn.
      * rewrite (modify_asset_Some _ _ _ _ Hk); cbn.
        by rewrite modify_asset_insert.
      * by rewrite insert_id, with_assets_data_id.
    + by rewrite insert_id, with_assets_data_id.
Qed.

Lemma update_portfolio_revalued (self : Backtester F) asset st h price :
  assets_data self !! asset = Some st →
  portfolio_history self !! asset = Some h →
  update_portfolio self asset price
  = Ok (with_portfolio_history
          (<[asset := h ++ [total_value (revalued st price)]]>
             (portfolio_history self))
          (with_assets_data
             (<[asset := revalued st price]> (assets_data self)) self)).
Proof.
  intros Hk Hh. unfold update_portfolio, revalued.
  rewrite (modify_asset_Some _ _ _ _ Hk). cbn.
  rewrite modify_asset_insert. cbn.
  rewrite (getitem_Some _ _ _ Hh). cbn.
  rewrite getitem_insert. cbn. by destruct st.
Qed.
End Steps.

(** ** Exact arithmetic: the operations on finite values *)

Section Exact.
Local Open Scope R_scope.

Lemma xreal_numpy : zero_division (F := xreal) = false.
Proof. reflexivity. Qed.

Lemma binary64_numpy : zero_division (F := binary64) = false.
Proof. reflexivity. Qed.

Lemma Rltb_true (x y : R) : x < y → Rltb x y = true.
Proof. intros Hlt. unfold Rltb. destruct (Rlt_dec x y); [done | lra]. Qed.

Lemma Rltb_false (x y : R) : y <= x → Rltb x y = false.
Proof. intros Hle. unfold Rltb. destruct (Rlt_dec x y); [lra | done]. Qed.

Lemma xdiv_Finite (a b : R) :
  b ≠ 0 → (Finite a / Finite b)%py = Finite (a / b).
Proof. intros Hb. cbn. by destruct (Req_dec_T b 0). Qed.

Lemma truediv_Finite (a b : R) :
  b ≠ 0 → truediv (Finite a) (Finite b) = Ok (Finite (a / b)).
Proof. intros Hb. by rewrite (truediv_numpy xreal_numpy), xdiv_Finite. Qed.

Lemma py_max_Finite (a b : R) : py_max (Finite a) (Finite b) = Finite (Rmax a b).
Proof.
  unfold py_max, Rmax. cbn. unfold Rltb.
  destruct (Rlt_dec a b), (Rle_dec a b); (done || f_equal; lra).
Qed.

Lemma calculate_commission_Finite (self : Backtester xreal) pct fx tv :
  commission_pct self = Finite pct →
  commission_fixed self = Finite fx →
  calculate_commission self (Finite tv) = Finite (Rmax (tv * pct) fx).
Proof.
  intros Hp Hf. unfold calculate_commission. rewrite Hp, Hf. cbn.
  apply py_max_Finite.
Qed.
End Exact.

(** ** The trade executor *)

Section Trades.
Local Open Scope R_scope.

Implicit Types (self : Backtester xreal) (st : AssetState xreal).

Lemma Zgtb_pos (z : Z) : (0 < z)%Z → (z >? 0)%Z = true.
Proof. intros Hz. apply Z.gtb_lt. lia. Qed.

Lemma Zgtb_nonpos (z : Z) : (z <= 0)%Z → (z >? 0)%Z = false.
Proof. intros Hz. rewrite Z.gtb_ltb. apply Z.ltb_ge. lia. Qed.

Lemma Zltb_neg (z : Z) : (z < 0)%Z → (z <? 0)%Z = true.
Proof. intros Hz. by apply Z.ltb_lt. Qed.

Lemma Zltb_nonneg (z : Z) : (0 <= z)%Z → (z <? 0)%Z = false.
Proof. intros Hz. by apply Z.ltb_ge. Qed.

(** A buy: all the cash goes into the position. *)
Lemma traded_buy self st signal c p pr pct fx :
  cash st = Finite c → positions st = Finite p →
  commission_pct self = Finite pct → commission_fixed self = Finite fx →
  (0 < signal)%Z → 0 < c → pr ≠ 0 →
  traded self st signal (Finite pr)
  = mkAssetState (Finite 0) (Finite (p + (c - Rmax (c * pct) fx) / pr))
      (position_value st) (total_value st).
Proof.
  intros Hc Hp Hpct Hfx Hs Hc0 Hpr. unfold traded.
  rewrite Hc, Hp, (Zgtb_pos _ Hs).
  rewrite (calculate_commission_Finite _ _ _ _ Hpct Hfx).
  cbn. rewrite (Rltb_true _ _ Hc0). cbn.
  destruct (Req_dec_T pr 0); [done|]. f_equal. f_equal. lra.
Qed.

(** A sale: the whole position is turned into cash. *)
Lemma traded_sell self st signal c p pr pct fx :
  cash st = Finite c → positions st = Finite p →
  commission_pct self = Finite pct → commission_fixed self = Finite fx →
  (signal < 0)%Z → 0 < p →
  traded self st signal (Finite pr)
  = mkAssetState (Finite (c + (p * pr - Rmax (p * pr * pct) fx))) (Finite 0)
      (position_value st) (total_value st).
Proof.
  intros Hc Hp Hpct Hfx Hs Hp0. unfold traded.
  rewrite Hc, Hp, (Zgtb_nonpos signal), (Zltb_neg _ Hs) by lia.
  cbn. rewrite (Rltb_true _ _ Hp0). cbn.
  rewrite (calculate_commission_Finite _ _ _ _ Hpct Hfx).
  by cbn.
Qed.

(** Nothing to do: no buy signal with cash, no sell signal with shares. *)
Lemma traded_hold {F} `{PyFloat F} (self : Backtester F) (st : AssetState F)
    signal price :
  (signal >? 0)%Z && fltb (of_Z 0) (cash st) = false →
  (signal <? 0)%Z && fltb (of_Z 0) (positions st) = false →
  traded self st signal price = st.
Proof. intros Hb Hs. unfold traded. by rewrite Hb, Hs. Qed.

(** C1 fails as stated: with signal 0 the five shares held are kept. *)
Lemma signal_zero_does_not_liquidate :
  execute_trade (account 0 5) "AAPL" 0 (Finite 10) = Ok (account 0 5)
  ∧ ¬ ∃ self' st',
        execute_trade (account 0 5) "AAPL" 0 (Finite 10) = Ok self'
        ∧ assets_data self' !! "AAPL"%string = Some st'
        ∧ positions st' = Finite 0.
Proof.
  assert (execute_trade (account 0 5) "AAPL" 0 (Finite 10) = Ok (account 0 5))
    as Hrun by reflexivity.
  split; [done|]. intros (self' & st' & Hex & Hst & Hpos).
  rewrite Hrun in Hex. injection Hex as <-.
  cbn in Hst. rewrite lookup_singleton_eq in Hst. injection Hst as <-.
  cbn in Hpos. injection Hpos as Hpos. lra.
Qed.

(** C1, amended: a strictly negative signal on an asset with shares
    liquidates the whole position, positions become 0 and cash grows by
    [positions * price] minus the commission on it; with signal 0 the call
    changes nothing. *)
Theorem execute_trade_liquidates_on_negative_signal
    self asset st signal c p pr pct fx :
  assets_data self !! asset = Some st →
  cash st = Finite c → positions st = Finite p →
  commission_pct self = Finite pct → commission_fixed self = Finite fx →
  0 < p → 0 < pr →
  ((signal < 0)%Z →
     execute_trade self asset signal (Finite pr)
     = Ok (with_assets_data
             (<[asset := mkAssetState
                           (Finite (c + (p * pr - Rmax (p * pr * pct) fx)))
                           (Finite 0) (position_value st) (total_value st)]>
                (assets_data self)) self))
  ∧ (signal = 0%Z → execute_trade self asset signal (Finite pr) = Ok self).
Proof.
  intros Hk Hc Hp Hpct Hfx Hp0 Hpr. split; intros Hs.
  - rewrite (execute_trade_traded xreal_numpy _ _ _ _ _ Hk).
    by rewrite (traded_sell _ _ _ c p pr pct fx).
  - rewrite (execute_trade_traded xreal_numpy _ _ _ _ _ Hk), traded_hold.
    + by rewrite insert_id, with_assets_data_id.
    + by rewrite Hs.
    + by rewrite Hs.
Qed.

Lemma execute_trade_liquidates_on_negative_signal_witness :
  execute_trade (account 0 5) "AAPL" (-1) (Finite 10)
  = Ok (with_assets_data
          (<["AAPL"%string := mkAssetState
                        (Finite (0 + (5 * 10 - Rmax (5 * 10 * 0.001) 1)))
                        (Finite 0) (Finite 0) (Finite 0)]>
             (assets_data (account 0 5))) (account 0 5))
  ∧ execute_trade (account 0 5) "AAPL" 0 (Finite 10) = Ok (account 0 5).
Proof.
  pose proof (execute_trade_liquidates_on_negative_signal
                (account 0 5) "AAPL"
                (mkAssetState (Finite 0) (Finite 5) (Finite 0) (Finite 0))
                (-1) 0 5 10 0.001 1) as Hsell.
  pose proof (execute_trade_liquidates_on_negative_signal
                (account 0 5) "AAPL"
                (mkAssetState (Finite 0) (Finite 5) (Finite 0) (Finite 0))
                0 0 5 10 0.001 1) as Hhold.
  split.
  - apply Hsell; try reflexivity; try lra; try lia.
  - apply Hhold; try reflexivity; try lra; try lia.
Defined.
(** C5: a positive signal on an asset with cash invests all of it; the shares
    bought are [(cash - commission(cash)) / price] with
    [commission(v) = max(v * commission_pct, commission_fixed)], and the cash
    left is exactly 0. *)
Theorem execute_trade_invests_all_cash self asset st signal c p pr pct fx :
  assets_data self !! asset = Some st →
  cash st = Finite c → positions st = Finite p →
  commission_pct self = Finite pct → commission_fixed self = Finite fx →
  (0 < signal)%Z → 0 < c → 0 < pr →
  execute_trade self asset signal (Finite pr)
  = Ok (with_assets_data
          (<[asset := mkAssetState (Finite 0)
                        (Finite (p + (c - Rmax (c * pct) fx) / pr))
                        (position_value st) (total_value st)]>
             (assets_data self)) self).
Proof.
  intros Hk Hc Hp Hpct Hfx Hs Hc0 Hpr.
  rewrite (execute_trade_traded xreal_numpy _ _ _ _ _ Hk).
  rewrite (traded_buy _ _ _ c p pr pct fx); (done || lra).
Qed.

Lemma execute_trade_invests_all_cash_witness :
  execute_trade (account 10000 0) "AAPL" 1 (Finite 100)
  = Ok (with_assets_data
          (<["AAPL"%string := mkAssetState (Finite 0)
                        (Finite (0 + (10000 - Rmax (10000 * 0.001) 1) / 100))
                        (Finite 0) (Finite 0)]>
             (assets_data (account 10000 0))) (account 10000 0)).
Proof.
  apply (execute_trade_invests_all_cash (account 10000 0) "AAPL"
           (mkAssetState (Finite 10000) (Finite 0) (Finite 0) (Finite 0))
           1 10000 0 100 0.001 1); try reflexivity; lra.
Defined.

Lemma account_insert (c p c' p' : R) :
  with_assets_data
    (<["AAPL"%string := mkAssetState (Finite c') (Finite p') (Finite 0) (Finite 0)]>
       (assets_data (account c p))) (account c p)
  = account c' p'.
Proof. unfold account. cbn. by rewrite insert_singleton_eq. Qed.

(** C6 fails as stated: the fixed fee of 1 exceeds the cash of 1/2, and the
    buy leaves a negative share count; it exceeds the value 1/2 of the shares
    held, and the sale leaves negative cash. *)
Lemma trade_below_fixed_fee_goes_negative :
  (execute_trade (account (1/2) 0) "AAPL" 1 (Finite 1)
   = Ok (account 0 (-1/2)) ∧ -1/2 < 0)
  ∧ (execute_trade (account 0 (1/2)) "AAPL" (-1) (Finite 1)
     = Ok (account (-1/2) 0) ∧ -1/2 < 0).
Proof.
  split; (split; [|lra]).
  - rewrite (execute_trade_traded xreal_numpy _ _
               (mkAssetState (Finite (1/2)) (Finite 0) (Finite 0) (Finite 0)))
      by reflexivity.
    rewrite (traded_buy _ _ _ (1/2) 0 1 0.001 1); try reflexivity; try lra.
    cbn [position_value total_value]. rewrite account_insert.
    do 2 f_equal. rewrite Rmax_right by lra. lra.
  - rewrite (execute_trade_traded xreal_numpy _ _
               (mkAssetState (Finite 0) (Finite (1/2)) (Finite 0) (Finite 0)))
      by reflexivity.
    rewrite (traded_sell _ _ _ 0 (1/2) 1 0.001 1); try reflexivity; try lra.
    cbn [position_value total_value]. rewrite account_insert.
    do 2 f_equal. rewrite Rmax_right by lra. lra.
Qed.

(** C6, amended: cash and positions stay non-negative through a trade whose
    commission does not exceed its trade value (the cash on a buy, the value
    [positions * price] of the shares on a sale). *)
Theorem execute_trade_keeps_nonnegative self asset st signal c p pr pct fx :
  assets_data self !! asset = Some st →
  cash st = Finite c → positions st = Finite p →
  commission_pct self = Finite pct → commission_fixed self = Finite fx →
  0 <= c → 0 <= p → 0 < pr →
  ((0 < signal)%Z → 0 < c → Rmax (c * pct) fx <= c) →
  ((signal < 0)%Z → 0 < p → Rmax (p * pr * pct) fx <= p * pr) →
  ∃ self' st' c' p',
    execute_trade self asset signal (Finite pr) = Ok self'
    ∧ assets_data self' !! asset = Some st'
    ∧ cash st' = Finite c' ∧ positions st' = Finite p'
    ∧ 0 <= c' ∧ 0 <= p'.
Proof.
  intros Hk Hc Hp Hpct Hfx Hc0 Hp0 Hpr Hbuy Hsell.
  rewrite (execute_trade_traded xreal_numpy _ _ _ _ _ Hk).
  eexists _, (traded self st signal (Finite pr)).
  enough (∃ c' p', cash (traded self st signal (Finite pr)) = Finite c'
                   ∧ positions (traded self st signal (Finite pr)) = Finite p'
                   ∧ 0 <= c' ∧ 0 <= p') as (c' & p' & Hc' & Hp' & Hbounds).
  { exists c', p'. split; [reflexivity|]. split; [|done].
    cbn. apply lookup_insert_eq. }
  destruct (Z.lt_trichotomy signal 0) as [Hs | [Hs | Hs]].
  - destruct (Rle_lt_dec p 0) as [Hz | Hpos].
    + exists c, p. rewrite traded_hold; [done| |].
      * by rewrite Zgtb_nonpos by lia.
      * rewrite Hp. cbn. rewrite Rltb_false by done. apply andb_false_r.
    + rewrite (traded_sell _ _ _ c p pr pct fx) by done.
      specialize (Hsell Hs Hpos).
      eexists _, _. cbn. repeat split; try reflexivity; lra.
  - exists c, p. rewrite traded_hold; [done| |]; by rewrite Hs.
  - destruct (Rle_lt_dec c 0) as [Hz | Hpos].
    + exists c, p. rewrite traded_hold; [done| |].
      * rewrite Hc. cbn. rewrite Rltb_false by done. apply andb_false_r.
      * by rewrite Zltb_nonneg by lia.
    + rewrite (traded_buy _ _ _ c p pr pct fx) by (done || lra).
      specialize (Hbuy Hs Hpos).
      assert (0 <= (c - Rmax (c * pct) fx) / pr).
      { apply Rmult_le_pos; [lra|]. apply Rlt_le, Rinv_0_lt_compat, Hpr. }
      eexists _, _. cbn. repeat split; try reflexivity; lra.
Qed.

Lemma execute_trade_keeps_nonnegative_witness :
  ∃ self' st' c' p',
    execute_trade (account 10000 0) "AAPL" 1 (Finite 100) = Ok self'
    ∧ assets_data self' !! "AAPL"%string = Some st'
    ∧ cash st' = Finite c' ∧ positions st' = Finite p'
    ∧ 0 <= c' ∧ 0 <= p'.
Proof.
  apply (execute_trade_keeps_nonnegative (account 10000 0) "AAPL"
           (mkAssetState (Finite 10000) (Finite 0) (Finite 0) (Finite 0))
           1 10000 0 100 0.001 1); try reflexivity; try lra.
  intros _ _. apply Rmax_lub; lra.
Defined.
End Trades.

(** ** The loops of [backtest] *)

Section Loops.
Context {F : Type} `{PyFloat F}.
Hypothesis numpy_scalars : zero_division = false.
Local Open Scope py_scope.

Implicit Types (self : Backtester F) (st : AssetState F).

Lemma traded_params self self' st signal price :
  commission_pct self' = commission_pct self →
  commission_fixed self' = commission_fixed self →
  traded self' st signal price = traded self st signal price.
Proof.
  intros Hp Hf. unfold traded, calculate_commission. by rewrite Hp, Hf.
Qed.

Lemma asset_path_params self self' st rows :
  commission_pct self' = commission_pct self →
  commission_fixed self' = commission_fixed self →
  asset_path self' st rows = asset_path self st rows.
Proof.
  intros Hp Hf. revert st. induction rows as [|row rows IH]; intros st; [done|].
  cbn. rewrite (traded_params self self') by done. by rewrite IH.
Qed.

Lemma list_index_last {A} (l : list A) (k : nat) :
  (k < length l)%nat → list_index l (Z.of_nat (S k) - 1) = Ok k.
Proof.
  intros Hk. unfold list_index.
  rewrite decide_True by lia. f_equal. lia.
Qed.

(** One row: the asset is traded and revalued, its value recorded in its
    history and absorbed in the combined series. *)
Lemma backtest_row_absorb asset df self st h row :
  assets_data self !! asset = Some st →
  portfolio_history self !! asset = Some h →
  (length h < length df)%nat →
  let st' := revalued (traded self st (signal row) (close row)) (close row) in
  backtest_row asset df self row
  = Ok (mkBacktester (initial_capital self) (commission_pct self)
          (commission_fixed self)
          (<[asset := st']> (assets_data self))
          (<[asset := h ++ [total_value st']]> (portfolio_history self))
          (absorb (length df) (daily_portfolio_values self) (length h)
             (total_value st'))).
Proof.
  intros Hk Hh Hlen st'. unfold backtest_row.
  rewrite (execute_trade_traded numpy_scalars _ _ _ _ _ Hk). cbn -[Nat.ltb].
  erewrite update_portfolio_revalued; [|apply lookup_insert_eq|exact Hh].
  cbn -[Nat.ltb]. rewrite !insert_insert_eq. fold st'. unfold absorb.
  destruct (length (daily_portfolio_values self) <? length df)%nat eqn:Hlt.
  - by rewrite getitem_insert.
  - rewrite !getitem_insert. cbn -[Nat.ltb].
    apply Nat.ltb_ge in Hlt.
    by rewrite length_app, Nat.add_1_r, list_index_last by lia.
Qed.
(** The rows of one asset. *)
Lemma backtest_rows asset df rows self st h :
  assets_data self !! asset = Some st →
  portfolio_history self !! asset = Some h →
  (length h + length rows ≤ length df)%nat →
  for_each (backtest_row asset df) rows self
  = Ok (mkBacktester (initial_capital self) (commission_pct self)
          (commission_fixed self)
          (<[asset := default st (last (asset_path self st rows))]>
             (assets_data self))
          (<[asset := h ++ asset_values self st rows]> (portfolio_history self))
          (absorb_all (length df) (daily_portfolio_values self) (length h)
             (asset_values self st rows))).
Proof.
  revert self st h. induction rows as [|row rows IH]; intros self st h Hk Hh Hlen.
  - cbn. rewrite app_nil_r, !insert_id by done. by destruct self.
  - cbn [for_each]. cbn in Hlen.
    rewrite (backtest_row_absorb _ _ _ _ _ _ Hk Hh) by lia. cbn.
    set (st' := revalued (traded self st (signal row) (close row)) (close row)).
    erewrite IH; [|apply lookup_insert_eq|apply lookup_insert_eq|].
    2:{ rewrite length_app. cbn. lia. }
    cbn. rewrite !insert_insert_eq.
    unfold asset_values.
    rewrite (asset_path_params self) by done.
    cbn. fold st'. rewrite last_cons.
    rewrite length_app, Nat.add_1_r, <- app_assoc. cbn.
    by destruct (last (asset_path self st' rows)).
Qed.

Lemma absorb_asset_params self self' n daily entry :
  initial_capital self' = initial_capital self →
  commission_pct self' = commission_pct self →
  commission_fixed self' = commission_fixed self →
  absorb_asset self' n daily entry = absorb_asset self n daily entry.
Proof.
  intros Hi Hp Hf. unfold absorb_asset, asset_values, fresh_asset.
  by rewrite Hi, (asset_path_params self self').
Qed.

(** One entry of the dictionary. *)
Lemma backtest_asset_absorb n self asset df :
  n ≠ 0%nat →
  ∃ self',
    backtest_asset n self (asset, df) = Ok self'
    ∧ initial_capital self' = initial_capital self
    ∧ commission_pct self' = commission_pct self
    ∧ commission_fixed self' = commission_fixed self
    ∧ assets_data self' !! asset
      = Some (default (fresh_asset self n)
                (last (asset_path self (fresh_asset self n) df)))
    ∧ daily_portfolio_values self'
      = absorb_asset self n (daily_portfolio_values self) (asset, df).
Proof.
  intros Hn. unfold backtest_asset.
  rewrite (truediv_numpy numpy_scalars). cbn.
  erewrite backtest_rows; [|apply lookup_insert_eq|apply lookup_insert_eq|done].
  eexists. split; [reflexivity|]. cbn.
  rewrite lookup_insert_eq. unfold absorb_asset, asset_values, fresh_asset.
  by rewrite !(asset_path_params self).
Qed.

(** All the entries. *)
Lemma backtest_assets n entries self :
  n ≠ 0%nat →
  ∃ self',
    for_each (backtest_asset n) entries self = Ok self'
    ∧ initial_capital self' = initial_capital self
    ∧ commission_pct self' = commission_pct self
    ∧ commission_fixed self' = commission_fixed self
    ∧ daily_portfolio_values self'
      = fold_left (absorb_asset self n) entries (daily_portfolio_values self).
Proof.
  intros Hn. revert self.
  induction entries as [|[asset df] entries IH]; intros self.
  - by exists self.
  - destruct (backtest_asset_absorb n self asset df Hn)
      as (self1 & Hrun & Hi & Hp & Hf & _ & Hd).
    destruct (IH self1) as (self2 & Hrun2 & Hi2 & Hp2 & Hf2 & Hd2).
    exists self2. cbn [for_each]. rewrite Hrun.
    split; [exact Hrun2|]. repeat split; [congruence..|].
    rewrite Hd2, Hd. clear -Hi Hp Hf. cbn [fold_left].
    generalize (absorb_asset self n (daily_portfolio_values self) (asset, df)).
    induction entries as [|e entries IHe]; intros d; [done|].
    cbn. by rewrite IHe, (absorb_asset_params self self1).
Qed.

Lemma backtest_entries self data :
  ∃ self',
    for_each (backtest_asset (length data)) data self = Ok self'
    ∧ daily_portfolio_values self'
      = fold_left (absorb_asset self (length data)) data
          (daily_portfolio_values self).
Proof.
  destruct data as [|e data]; [by exists self|].
  destruct (backtest_assets (length (e :: data)) (e :: data) self)
    as (self' & Hrun & _ & _ & _ & Hd); [done|].
  by exists self'.
Qed.
End Loops.

(** ** The embedding on the specification's scenario *)

Lemma backtest_scenario :
  Run.values (backtest Run.default (Frame Run.scenario))
  = Some Run.scenario_values.
Proof. by vm_compute. Qed.

(** ** The driver never rejects its input *)

Section Driver.
Context {F : Type} `{PyFloat F}.
Hypothesis numpy_scalars : zero_division = false.

Lemma absorb_all_append (n : nat) (daily vs : list F) (k : nat) :
  (length daily + length vs ≤ n)%nat →
  absorb_all n daily k vs = daily ++ vs.
Proof.
  revert daily k. induction vs as [|v vs IH]; intros daily k Hlen.
  - by rewrite app_nil_r.
  - cbn in *. unfold absorb at 1.
    destruct (Nat.ltb_spec (length daily) n) as [_|?]; [|lia].
    rewrite IH, <- app_assoc; [done|]. rewrite length_app. cbn. lia.
Qed.

Lemma length_asset_values (self : Backtester F) st rows :
  length (asset_values self st rows) = length rows.
Proof.
  unfold asset_values. rewrite length_map. revert st.
  induction rows as [|row rows IH]; intros st; [done|]. cbn. by rewrite IH.
Qed.

(** A run on one frame, from a new backtester. *)
Lemma backtest_frame (ic pct fx : F) (df : list (Row F)) :
  ∃ self',
    backtest (init ic pct fx) (Frame df) = Ok self'
    ∧ assets_data self' !! "SINGLE_ASSET"%string
      = Some (default (fresh_asset (init ic pct fx) 1)
                (last (asset_path (init ic pct fx)
                         (fresh_asset (init ic pct fx) 1) df)))
    ∧ daily_portfolio_values self'
      = asset_values (init ic pct fx) (fresh_asset (init ic pct fx) 1) df.
Proof.
  unfold backtest. cbn [for_each length].
  destruct (backtest_asset_absorb numpy_scalars 1 (init ic pct fx) "SINGLE_ASSET" df)
    as (self' & Hrun & _ & _ & _ & Hst & Hd); [done|].
  exists self'. rewrite Hrun. split; [done|]. split; [done|].
  rewrite Hd. unfold absorb_asset. cbn [snd init daily_portfolio_values].
  rewrite absorb_all_append; [done|].
  cbn. by rewrite length_asset_values.
Qed.

(** C2, amended: on the numpy scalars of a numeric frame, whatever the close
    prices, non-positive ones included, the driver does not reject its
    input; it returns, and a run on one frame from a new backtester returns
    a combined series with one entry per record. *)
Theorem backtest_never_rejects (self : Backtester F) (data : Data F) :
  ∃ self',
    backtest self data = Ok self'
    ∧ ∀ ic pct fx df,
        self = init ic pct fx → data = Frame df →
        length (daily_portfolio_values self') = length df.
Proof.
  destruct data as [df|d].
  - unfold backtest. cbn [for_each length].
    destruct (backtest_asset_absorb numpy_scalars 1 self "SINGLE_ASSET" df)
      as (self' & Hrun & _ & _ & _ & _ & Hd); [done|].
    exists self'. rewrite Hrun. split; [done|].
    intros ic pct fx df' -> [= <-].
    rewrite Hd. unfold absorb_asset. cbn [snd init daily_portfolio_values].
    rewrite absorb_all_append; cbn; by rewrite length_asset_values.
  - destruct (backtest_entries numpy_scalars self d) as (self' & Hrun & _).
    exists self'. split; [done|]. intros ic pct fx df _ [=].
Qed.
End Driver.

(** ** Runs in exact arithmetic *)

(** Settles the comparisons of concrete reals that a goal branches on. *)
Ltac decide_reals :=
  repeat match goal with
         | |- context [Rlt_dec ?a ?b] => destruct (Rlt_dec a b); try lra
         | |- context [Rle_dec ?a ?b] => destruct (Rle_dec a b); try lra
         | |- context [Req_dec_T ?a ?b] => destruct (Req_dec_T a b); try lra
         end.

Lemma fresh_asset_Finite (c : R) (pct fx : xreal) (n : nat) :
  n ≠ 0%nat →
  fresh_asset (init (Finite c) pct fx) n
  = mkAssetState (Finite (c / INR n)) (Finite 0) (Finite 0) (Finite 0).
Proof.
  intros Hn. unfold fresh_asset. cbn [initial_capital init].
  change (of_Z (Z.of_nat n)) with (Finite (IZR (Z.of_nat n))).
  rewrite <- INR_IZR_INZ, xdiv_Finite; [done|]. by apply not_0_INR.
Qed.

Lemma fresh_asset_single (c : R) (pct fx : xreal) :
  fresh_asset (init (Finite c) pct fx) 1
  = mkAssetState (Finite c) (Finite 0) (Finite 0) (Finite 0).
Proof.
  rewrite fresh_asset_Finite by done. do 2 f_equal. cbn. lra.
Qed.

Lemma backtest_never_rejects_witness :
  ∃ self',
    backtest Run.default (Frame Run.free_share) = Ok self'
    ∧ ∀ ic pct fx df,
        Run.default = init ic pct fx → Frame Run.free_share = Frame df →
        length (daily_portfolio_values self') = length df.
Proof.
  apply (backtest_never_rejects (F := binary64)). reflexivity.
Defined.

(** C2 fails as stated: a record with close price 0 is not rejected; the
    buy divides by it and the combined series is a single not-a-number, on
    binary64 and on the extended reals alike.  Nor is a record with a
    negative close price, on numpy scalars or on Python floats. *)
Lemma backtest_accepts_nonpositive_prices :
  Run.values (backtest Run.default (Frame Run.free_share))
  = Some [PrimFloat.nan]
  ∧ Run.values (@backtest binary64 python_binary64 Run.default
                  (Frame Run.negative_close))
    = Some Run.negative_close_values
  ∧ ∃ self',
      backtest (init (Finite 10000) (Finite 0.001) (Finite 1))
        (Frame [mkRow (Finite 0) 1]) = Ok self'
      ∧ daily_portfolio_values self' = [NaN].
Proof.
  split; [by vm_compute|]. split; [by vm_compute|].
  destruct (backtest_frame xreal_numpy (Finite 10000) (Finite 0.001) (Finite 1)
              [mkRow (Finite 0) 1]) as (self' & Hrun & _ & Hd).
  exists self'. split; [done|]. rewrite Hd, fresh_asset_single.
  unfold asset_values, asset_path, revalued, traded, calculate_commission.
  unfold py_max.
  repeat (progress (cbn; unfold by_sign, Rltb; decide_reals)).
  done.
Qed.

Section Flat.
Local Open Scope R_scope.

Lemma flat_path (self : Backtester xreal) (c : R) (pv tv : xreal) rows :
  Forall flat_row rows →
  asset_path self (mkAssetState (Finite c) (Finite 0) pv tv) rows
  = replicate (length rows)
      (mkAssetState (Finite c) (Finite 0) (Finite 0) (Finite c)).
Proof.
  intros Hflat. revert pv tv.
  induction Hflat as [|row rows (pr & Hpr & _ & Hs) _ IH]; intros pv tv; [done|].
  cbn [asset_path length replicate]. rewrite traded_hold.
  - unfold revalued. rewrite Hpr. cbn.
    replace (0 * pr) with 0 by lra. replace (c + 0) with c by lra.
    by rewrite IH.
  - by rewrite Zgtb_nonpos.
  - cbn. rewrite Rltb_false by lra. apply andb_false_r.
Qed.

(** C9: on a single asset whose signals are all non-positive, however many
    records [k] of the series have been processed, the position is 0 and
    every entry of the combined series is the initial capital. *)
Theorem flat_signals_keep_capital (c : R) (pct fx : xreal)
    (df : list (Row xreal)) (k : nat) :
  Forall flat_row df →
  ∃ self' st',
    backtest (init (Finite c) pct fx) (Frame (take k df)) = Ok self'
    ∧ assets_data self' !! "SINGLE_ASSET"%string = Some st'
    ∧ positions st' = Finite 0
    ∧ daily_portfolio_values self'
      = replicate (length (take k df)) (Finite c).
Proof.
  intros Hflat.
  assert (Forall flat_row (take k df)) as Hk by by apply Forall_take.
  destruct (backtest_frame xreal_numpy (Finite c) pct fx (take k df))
    as (self' & Hrun & Hst & Hd).
  rewrite fresh_asset_single in Hst, Hd.
  unfold asset_values in Hd. rewrite flat_path in Hst, Hd by done.
  eexists self', _. split; [done|]. split; [exact Hst|]. split.
  - destruct (length (take k df)) as [|n]; [done|].
    by rewrite replicate_S_end, last_snoc.
  - rewrite Hd. clear.
    induction (length (take k df)) as [|n IH]; [done|]. cbn. by rewrite IH.
Qed.

Lemma flat_signals_keep_capital_witness :
  ∃ self' st',
    backtest (init (Finite 10000) (Finite 0.001) (Finite 1))
      (Frame (take 2 [mkRow (Finite 100) 0; mkRow (Finite 110) (-1)]))
    = Ok self'
    ∧ assets_data self' !! "SINGLE_ASSET"%string = Some st'
    ∧ positions st' = Finite 0
    ∧ daily_portfolio_values self'
      = replicate
          (length (take 2 [mkRow (Finite 100) 0; mkRow (Finite 110) (-1)]))
          (Finite 10000).
Proof.
  apply (flat_signals_keep_capital 10000 (Finite 0.001) (Finite 1)
           [mkRow (Finite 100) 0; mkRow (Finite 110) (-1)] 2).
  repeat constructor.
  - exists 100. cbn. repeat split; (lra || lia).
  - exists 110. cbn. repeat split; (lra || lia).
Defined.
End Flat.

(** ** The performance metrics *)

Section Metrics.
Local Open Scope R_scope.

(** C10: the total return of [initial_capital * (1 + r)] over
    [initial_capital] is [r], in exact arithmetic. *)
Theorem calculate_total_return_round_trip (r initial_capital : R) :
  0 < initial_capital →
  calculate_total_return (Finite (initial_capital * (1 + r)))
    (Finite initial_capital)
  = Ok (Finite r).
Proof.
  intros Hpos. unfold calculate_total_return.
  rewrite truediv_Finite by lra. cbn. do 2 f_equal. field. lra.
Qed.

Lemma calculate_total_return_round_trip_witness :
  calculate_total_return (Finite (10000 * (1 + 0.2076))) (Finite 10000)
  = Ok (Finite 0.2076).
Proof. apply (calculate_total_return_round_trip 0.2076 10000). lra. Defined.

Lemma calculate_sharpe_ratio_quotient (ar av rf : R) :
  av ≠ 0 →
  calculate_sharpe_ratio (Finite ar) (Finite av) (Finite rf)
  = Ok (Finite ((ar - rf) / av)).
Proof.
  intros Hav. unfold calculate_sharpe_ratio, try_except.
  change (Finite ar - Finite rf)%py with (Finite (ar - rf)).
  by rewrite truediv_Finite.
Qed.

(** C3 does not hold of the code: with a volatility of 0 and a positive
    excess return the ratio of numpy scalars is plus infinity, not a
    not-a-number value, and the division of Python floats raises
    [ZeroDivisionError]; neither is a [RuntimeError], so the handler that
    would return [np.nan] is never entered. *)
Theorem calculate_sharpe_ratio_zero_volatility :
  calculate_sharpe_ratio (F := binary64) PrimFloat.one PrimFloat.zero PrimFloat.zero
  = Ok PrimFloat.infinity
  ∧ calculate_sharpe_ratio (Finite 1) (Finite 0) (Finite 0) = Ok PInf
  ∧ @calculate_sharpe_ratio binary64 python_binary64
      PrimFloat.one PrimFloat.zero PrimFloat.zero
    = Raise ZeroDivisionError
  ∧ @calculate_sharpe_ratio xreal python_xreal (Finite 1) (Finite 0) (Finite 0)
    = Raise ZeroDivisionError.
Proof.
  split; [by vm_compute|]. split; [|split; [by vm_compute|]].
  - unfold calculate_sharpe_ratio, try_except.
    rewrite (truediv_numpy xreal_numpy). cbn. unfold by_sign.
    decide_reals. done.
  - unfold calculate_sharpe_ratio, try_except, truediv. cbn.
    destruct (Req_dec_T 0 0); [|done]. by cbn.
Qed.

(** *** pandas reductions on finite values *)

Lemma is_nan_Finite (x : R) : is_nan (Finite x) = false.
Proof. unfold is_nan. cbn. by destruct (Req_dec_T x x). Qed.

Lemma notna_Finite (l : list R) : notna (map Finite l) = map Finite l.
Proof.
  unfold notna. induction l as [|x l IH]; [done|].
  cbn [map List.filter]. by rewrite is_nan_Finite, IH.
Qed.

Lemma gt_Finite_Rmax (m x : R) :
  (if (Finite x >? Finite m)%py then Finite x else Finite m) = Finite (Rmax m x).
Proof.
  cbn. unfold Rltb, Rmax.
  destruct (Rlt_dec m x), (Rle_dec m x); (done || f_equal; lra).
Qed.

Lemma lt_Finite_Rmin (m y : R) :
  (if (Finite y <? Finite m)%py then Finite y else Finite m) = Finite (Rmin m y).
Proof.
  cbn. unfold Rltb, Rmin.
  destruct (Rlt_dec y m), (Rle_dec m y); (done || f_equal; lra).
Qed.

Lemma cummax_from_Finite (m : R) (vs : list R) :
  cummax_from (Some (Finite m)) (map Finite vs)
  = map Finite (running_maxima m vs).
Proof.
  revert m. induction vs as [|x vs IH]; intros m; [done|].
  cbn [map cummax_from running_maxima].
  by rewrite is_nan_Finite, gt_Finite_Rmax, IH.
Qed.

Lemma pd_cummax_Finite (x : R) (vs : list R) :
  pd_cummax (map Finite (x :: vs)) = map Finite (running_maxima x (x :: vs)).
Proof.
  unfold pd_cummax. cbn [map cummax_from running_maxima].
  rewrite is_nan_Finite, cummax_from_Finite.
  rewrite Rmax_left by lra. done.
Qed.

Lemma pd_min_Finite (a : R) (l : list R) :
  pd_min (map Finite (a :: l)) = Finite (fold_left Rmin l a).
Proof.
  unfold pd_min. rewrite notna_Finite. cbn [map].
  revert a. induction l as [|y l IH]; intros a; [done|].
  cbn [map fold_left]. by rewrite lt_Finite_Rmin, IH.
Qed.

Lemma zip_with_fdiv_Finite (vs ms : list R) :
  Forall (λ m, m ≠ 0) ms →
  zip_with fdiv (map Finite vs) (map Finite ms)
  = map Finite (zip_with Rdiv vs ms).
Proof.
  intros Hms. revert vs.
  induction Hms as [|m ms Hm _ IH]; intros [|v vs]; try done.
  cbn [map zip_with]. by rewrite xdiv_Finite, IH.
Qed.

(** *** The running maxima *)

Lemma running_maxima_positive (m : R) (vs : list R) :
  0 < m → Forall (λ x, 0 < x) (running_maxima m vs).
Proof.
  revert m. induction vs as [|x vs IH]; intros m Hm; [done|].
  cbn. pose proof (Rmax_l m x). constructor; [lra|]. apply IH. lra.
Qed.

Lemma length_running_maxima (m : R) (vs : list R) :
  length (running_maxima m vs) = length vs.
Proof.
  revert m. induction vs as [|x vs IH]; intros m; [done|]. cbn. by rewrite IH.
Qed.

(** The entry at [t] is the greatest of [m] and the values up to [t]. *)
Lemma running_maxima_lookup (m : R) (vs : list R) (t : nat) (m' : R) :
  running_maxima m vs !! t = Some m' →
  m' ∈ m :: take (S t) vs ∧ ∀ y, y ∈ m :: take (S t) vs → y <= m'.
Proof.
  revert m t. induction vs as [|x vs IH]; intros m t Hm'; [done|].
  pose proof (Rmax_l m x) as Hl. pose proof (Rmax_r m x) as Hr.
  assert (Rmax m x = m ∨ Rmax m x = x) as Hcase.
  { unfold Rmax. destruct (Rle_dec m x); auto. }
  destruct t as [|t]; cbn in Hm'.
  - injection Hm' as Heq. subst m'. cbn [take]. split.
    + rewrite !elem_of_cons. tauto.
    + intros y. rewrite !elem_of_cons, elem_of_nil.
      intros [Hy|[Hy|[]]]; subst y; lra.
  - destruct (IH _ _ Hm') as [Hin Hub]. cbn [take].
    assert (Rmax m x <= m') as Hle by (apply Hub; apply elem_of_cons; tauto).
    split.
    + revert Hin. rewrite !elem_of_cons. intros [Hin|Hin]; [|tauto].
      rewrite Hin. tauto.
    + intros y. rewrite !elem_of_cons.
      intros [Hy|[Hy|Hy]]; [subst y; lra|subst y; lra|].
      apply Hub. apply elem_of_cons. tauto.
Qed.

Lemma running_max_unique (vs : list R) (t : nat) (m m' : R) :
  running_max vs t m → running_max vs t m' → m = m'.
Proof.
  intros [Hin Hub] [Hin' Hub']. specialize (Hub _ Hin'). specialize (Hub' _ Hin).
  lra.
Qed.

Lemma running_maxima_running_max (x : R) (vs : list R) (t : nat) (m : R) :
  running_maxima x (x :: vs) !! t = Some m → running_max (x :: vs) t m.
Proof.
  intros Hm. destruct (running_maxima_lookup _ _ _ _ Hm) as [Hin Hub].
  split.
  - cbn [take] in *. revert Hin. rewrite !elem_of_cons. tauto.
  - intros y Hy. apply Hub. apply elem_of_cons. tauto.
Qed.

(** *** The least drawdown *)

Lemma fold_left_Rmin_least (l : list R) (a : R) :
  fold_left Rmin l a ∈ a :: l ∧ ∀ y, y ∈ a :: l → fold_left Rmin l a <= y.
Proof.
  revert a. induction l as [|x l IH]; intros a.
  - cbn. split; [apply list_elem_of_singleton; done|].
    intros y Hy. apply list_elem_of_singleton in Hy. subst y. lra.
  - cbn [fold_left]. destruct (IH (Rmin a x)) as [Hin Hlb].
    pose proof (Rmin_l a x) as Hl. pose proof (Rmin_r a x) as Hr.
    assert (Rmin a x = a ∨ Rmin a x = x) as Hcase.
    { unfold Rmin. destruct (Rle_dec a x); auto. }
    assert (fold_left Rmin l (Rmin a x) <= Rmin a x) as Hle
      by (apply Hlb; apply elem_of_cons; tauto).
    split.
    + revert Hin. rewrite !elem_of_cons. intros [Hin|Hin]; [|tauto].
      rewrite Hin. tauto.
    + intros y. rewrite !elem_of_cons.
      intros [Hy|[Hy|Hy]]; [subst y; lra|subst y; lra|].
      apply Hlb. apply elem_of_cons. tauto.
Qed.

Lemma drawdowns_nonpos (m : R) (vs : list R) :
  0 < m → Forall (λ d, d <= 0) (drawdowns vs (running_maxima m vs)).
Proof.
  revert m. induction vs as [|x vs IH]; intros m Hm; [constructor|].
  cbn. pose proof (Rmax_l m x). pose proof (Rmax_r m x). constructor.
  - assert (x / Rmax m x <= 1); [|lra].
    apply (Rmult_le_reg_r (Rmax m x)); [lra|].
    unfold Rdiv. rewrite Rmult_assoc, Rinv_l by lra. lra.
  - apply IH. lra.
Qed.

Lemma drawdowns_zero_sorted (m : R) (vs : list R) :
  0 < m →
  Forall (λ d, d = 0) (drawdowns vs (running_maxima m vs)) ↔ Sorted Rle (m :: vs).
Proof.
  revert m. induction vs as [|x vs IH]; intros m Hm.
  - split; intros _; repeat constructor.
  - cbn [running_maxima drawdowns zip_with].
    pose proof (Rmax_l m x). pose proof (Rmax_r m x).
    assert (x / Rmax m x - 1 = 0 ↔ m <= x) as Hhead.
    { split; intros Hx.
      - assert (x = Rmax m x); [|lra].
        apply (Rmult_eq_reg_r (/ Rmax m x)).
        + rewrite Rinv_r by lra. unfold Rdiv in Hx. lra.
        + apply Rinv_neq_0_compat. lra.
      - rewrite Rmax_right by done. field. lra. }
    split.
    + intros Hall. inversion Hall as [|? ? Hd Hrest]; subst.
      apply Hhead in Hd. rewrite Rmax_right in Hrest by done.
      constructor; [|by constructor]. apply IH; [lra|done].
    + intros Hsorted. inversion Hsorted as [|? ? Hs Hhd]; subst.
      inversion Hhd as [|? ? Hle]; subst.
      constructor; [by apply Hhead|].
      rewrite Rmax_right by done. apply IH; [lra|done].
Qed.

Lemma sub_one_Finite (l : list R) :
  map (λ q, q - of_Z 1)%py (map Finite l) = map Finite (map (λ q, q - 1) l).
Proof. induction l as [|q l IH]; [done|]. cbn [map]. by rewrite IH. Qed.

Lemma sub_one_drawdowns (vs ms : list R) :
  map (λ q, q - 1) (zip_with Rdiv vs ms) = drawdowns vs ms.
Proof.
  revert ms. induction vs as [|v vs IH]; intros [|m ms]; try done.
  cbn. by rewrite IH.
Qed.

Lemma calculate_maximum_drawdown_Finite (x : R) (vs : list R) :
  0 < x →
  calculate_maximum_drawdown (map Finite (x :: vs))
  = Finite (fold_left Rmin (drawdowns vs (running_maxima x vs)) (x / x - 1)).
Proof.
  intros Hx. unfold calculate_maximum_drawdown.
  rewrite pd_cummax_Finite, zip_with_fdiv_Finite.
  - rewrite sub_one_Finite, sub_one_drawdowns.
    cbn [running_maxima drawdowns zip_with]. rewrite pd_min_Finite.
    by rewrite Rmax_left by lra.
  - eapply Forall_impl; [apply running_maxima_positive, Hx|].
    intros m Hm. cbn in Hm. lra.
Qed.
(** C7: on a non-empty series of positive values the maximum drawdown is
    the least over [t] of [value[t] / running_max - 1]; it is at most 0, and
    it is 0 exactly when the series never decreases. *)
Theorem calculate_maximum_drawdown_least (vs : list R) :
  vs ≠ [] →
  Forall (λ v, 0 < v) vs →
  ∃ d,
    calculate_maximum_drawdown (map Finite vs) = Finite d
    ∧ min_drawdown vs d
    ∧ d <= 0
    ∧ (d = 0 ↔ Sorted Rle vs).
Proof.
  intros Hne Hpos. destruct vs as [|x vs]; [done|].
  inversion Hpos as [|? ? Hx Hvs]; subst.
  set (ms := running_maxima x (x :: vs)).
  set (dds := drawdowns (x :: vs) ms).
  set (d := fold_left Rmin (drawdowns vs (running_maxima x vs)) (x / x - 1)).
  assert (dds = (x / x - 1) :: drawdowns vs (running_maxima x vs)) as Hdds.
  { unfold dds, ms. cbn. by rewrite Rmax_left by lra. }
  destruct (fold_left_Rmin_least (drawdowns vs (running_maxima x vs)) (x / x - 1))
    as [Hin Hlb].
  fold d in Hin, Hlb. rewrite <- Hdds in Hin, Hlb.
  assert (length ms = length (x :: vs)) as Hlen
    by apply length_running_maxima.
  assert (Forall (λ d, d <= 0) dds) as Hnonpos.
  { rewrite Hdds. constructor; [|by apply drawdowns_nonpos].
    right. field. lra. }
  assert (Forall (λ d, d = 0) dds ↔ Sorted Rle (x :: vs)) as Hsorted.
  { rewrite Hdds, <- drawdowns_zero_sorted by done. split.
    - by inversion 1.
    - intros Hall. constructor; [field; lra|done]. }
  exists d. split; [by apply calculate_maximum_drawdown_Finite|].
  split; [split|split].
  - apply list_elem_of_lookup in Hin as [t Ht]. exists t.
    apply lookup_zip_with_Some in Ht as (v & m & -> & Hv & Hm).
    exists v, m. split; [done|]. split; [|done].
    by apply running_maxima_running_max.
  - intros t d' (v & m & Hv & Hmax & ->). apply Hlb.
    destruct (lookup_lt_is_Some_2 ms t) as [m' Hm'].
    { rewrite Hlen. by eapply lookup_lt_Some. }
    pose proof (running_maxima_running_max _ _ _ _ Hm') as Hmax'.
    rewrite (running_max_unique _ _ _ _ Hmax Hmax').
    apply list_elem_of_lookup. exists t.
    apply lookup_zip_with_Some. by exists v, m'.
  - rewrite Forall_forall in Hnonpos. by apply Hnonpos.
  - rewrite <- Hsorted. split.
    + intros Hd. apply Forall_forall. intros y Hy.
      rewrite Forall_forall in Hnonpos.
      specialize (Hnonpos _ Hy). specialize (Hlb _ Hy). lra.
    + intros Hall. rewrite Forall_forall in Hall. by apply Hall.
Qed.

Lemma calculate_maximum_drawdown_least_witness :
  ∃ d,
    calculate_maximum_drawdown (map Finite [100; 100; 110; 120]) = Finite d
    ∧ min_drawdown [100; 100; 110; 120] d
    ∧ d <= 0
    ∧ (d = 0 ↔ Sorted Rle [100; 100; 110; 120]).
Proof.
  apply (calculate_maximum_drawdown_least [100; 100; 110; 120]).
  - discriminate.
  - repeat constructor; lra.
Defined.
(** *** The sample standard deviation *)

Lemma fold_left_fadd_Finite (l : list R) (a : R) :
  fold_left fadd (map Finite l) (Finite a) = Finite (a + sum_list l).
Proof.
  revert a. induction l as [|x l IH]; intros a.
  - cbn. f_equal. lra.
  - cbn [map fold_left]. change (Finite a + Finite x)%py with (Finite (a + x)).
    rewrite IH. f_equal. change (sum_list (x :: l)) with (x + sum_list l). lra.
Qed.

Lemma pd_sum_Finite (l : list R) : pd_sum (map Finite l) = Finite (sum_list l).
Proof.
  unfold pd_sum. change (of_Z 0) with (Finite 0).
  rewrite fold_left_fadd_Finite. f_equal. lra.
Qed.

Lemma fdiv_of_nat (a : R) (n : nat) :
  n ≠ 0%nat → (Finite a / of_Z (Z.of_nat n))%py = Finite (a / INR n).
Proof.
  intros Hn. change (of_Z (Z.of_nat n)) with (Finite (IZR (Z.of_nat n))).
  rewrite <- INR_IZR_INZ, xdiv_Finite; [done|]. by apply not_0_INR.
Qed.

Lemma sum_list_squares_nonneg (m : R) (l : list R) :
  0 <= sum_list (map (λ x, (m - x) * (m - x)) l).
Proof.
  unfold sum_list. induction l as [|x l IH]; cbn; [lra|].
  pose proof (Rle_0_sqr (m - x)) as Hsq. unfold Rsqr in Hsq. lra.
Qed.

Lemma sum_list_squares (m : R) (l : list R) :
  sum_list (map (λ x, (m - x) * (m - x)) l) = sum_list (map (λ x, (x - m)²) l).
Proof.
  unfold sum_list. induction l as [|x l IH]; [done|].
  cbn. rewrite IH. unfold Rsqr. lra.
Qed.

Lemma pd_std_Finite (l : list R) :
  (2 ≤ length l)%nat → pd_std (map Finite l) = Finite (sample_std l).
Proof.
  intros Hlen. unfold pd_std. rewrite notna_Finite, length_map.
  destruct (Nat.leb_spec (length l) 1) as [?|_]; [lia|].
  rewrite pd_sum_Finite, fdiv_of_nat by lia. fold (mean l).
  assert (map (λ x, (Finite (mean l) - x) * (Finite (mean l) - x))%py
            (map Finite l)
          = map Finite (map (λ x, (mean l - x) * (mean l - x)) l)) as ->.
  { generalize (mean l). intros m. clear.
    induction l as [|x l IH]; [done|]. cbn [map]. by rewrite IH. }
  rewrite pd_sum_Finite, fdiv_of_nat by lia.
  rewrite minus_INR by lia. cbn [INR].
  assert (0 < INR (length l) - 1).
  { assert (2 <= INR (length l)); [|lra]. by apply (le_INR 2). }
  pose proof (sum_list_squares_nonneg (mean l) l).
  cbn. destruct (Rlt_dec _ 0) as [Hneg|_].
  - exfalso. apply (Rlt_not_le _ _ Hneg).
    apply Rmult_le_pos; [done|]. by apply Rlt_le, Rinv_0_lt_compat.
  - unfold sample_std. by rewrite sum_list_squares.
Qed.

Lemma pd_std_few {F} `{PyFloat F} (l : list F) :
  (length (notna l) ≤ 1)%nat → pd_std l = fnan.
Proof.
  intros Hlen. unfold pd_std.
  by destruct (Nat.leb_spec (length (notna l)) 1) as [_|?]; [|lia].
Qed.

Lemma sample_std_few (l : list R) : (length l ≤ 1)%nat → sample_std l = 0.
Proof.
  intros Hlen. unfold sample_std.
  assert (sum_list (map (λ x, (x - mean l)²) l) = 0) as ->.
  { destruct l as [|x [|y l]]; [done| |cbn in Hlen; lia].
    unfold mean. cbn. unfold Rsqr. field. }
  unfold Rdiv. by rewrite Rmult_0_l, sqrt_0.
Qed.

Lemma negative_returns_Finite (rs : list R) :
  List.filter (λ r, r <? of_Z 0)%py (map Finite rs) = map Finite (negatives rs).
Proof.
  unfold negatives. induction rs as [|r rs IH]; [done|].
  cbn [map List.filter]. change (Finite r <? of_Z 0)%py with (Rltb r 0).
  destruct (Rltb r 0); cbn [map]; by rewrite IH.
Qed.

Lemma negatives_none (rs : list R) :
  Forall (λ r, 0 <= r) rs → negatives rs = [].
Proof.
  unfold negatives. induction 1 as [|r rs Hr _ IH]; [done|].
  cbn. by rewrite Rltb_false, IH.
Qed.

Lemma fsqrt_252 : fsqrt (of_Z 252) = Finite (sqrt 252).
Proof. cbn. destruct (Rlt_dec 252 0); [lra|done]. Qed.

(** C8: without a negative return the Sortino ratio is the not-a-number
    sentinel; when the downside volatility is positive, it is the excess
    return divided by it. *)
Theorem calculate_sortino_ratio_cases (rs : list R) (ar rf : R) :
  (Forall (λ r, 0 <= r) rs →
   calculate_sortino_ratio (map Finite rs) (Finite ar) (Finite rf) = Ok NaN)
  ∧ (0 < downside_volatility rs →
     calculate_sortino_ratio (map Finite rs) (Finite ar) (Finite rf)
     = Ok (Finite ((ar - rf) / downside_volatility rs))).
Proof.
  unfold calculate_sortino_ratio. rewrite negative_returns_Finite, fsqrt_252.
  split.
  - intros Hnone. rewrite (negatives_none _ Hnone).
    rewrite pd_std_few by (cbn; lia). reflexivity.
  - intros Hpos. unfold downside_volatility in *.
    destruct (le_lt_dec (length (negatives rs)) 1) as [Hfew|Hmany].
    { rewrite sample_std_few in Hpos by done. lra. }
    rewrite pd_std_Finite by lia.
    change (Finite (sample_std (negatives rs)) * Finite (sqrt 252))%py
      with (Finite (sample_std (negatives rs) * sqrt 252)).
    change (?x >? of_Z 0)%py with (xltb (Finite 0) x). cbn [xltb].
    rewrite (Rltb_true _ _ Hpos).
    change (Finite ar - Finite rf)%py with (Finite (ar - rf)).
    apply truediv_Finite. lra.
Qed.
Lemma calculate_sortino_ratio_cases_witness :
  calculate_sortino_ratio (map Finite [1; 2]) (Finite 1) (Finite 0) = Ok NaN
  ∧ calculate_sortino_ratio (map Finite [-1; -3]) (Finite 1) (Finite 0)
    = Ok (Finite ((1 - 0) / downside_volatility [-1; -3])).
Proof.
  split.
  - apply (proj1 (calculate_sortino_ratio_cases [1; 2] 1 0)).
    repeat constructor; lra.
  - apply (proj2 (calculate_sortino_ratio_cases [-1; -3] 1 0)).
    unfold downside_volatility, negatives. cbn [List.filter]. unfold Rltb.
    decide_reals.
    apply Rmult_lt_0_compat; apply sqrt_lt_R0; [|lra].
    unfold mean, sum_list, Rsqr. cbn. lra.
Defined.
End Metrics.

(** ** Identical assets *)

Section Copies.
Local Open Scope R_scope.

Lemma traded_Finite (self : Backtester xreal) c p pv tv signal pr pct fx :
  commission_pct self = Finite pct → commission_fixed self = Finite fx →
  pr ≠ 0 →
  traded self (mkAssetState (Finite c) (Finite p) pv tv) signal (Finite pr)
  = mkAssetState (Finite (tradedR pct fx (c, p) signal pr).1)
      (Finite (tradedR pct fx (c, p) signal pr).2) pv tv.
Proof.
  intros Hpct Hfx Hpr. unfold traded, tradedR, calculate_commission.
  rewrite Hpct, Hfx. cbn -[py_max Rmax]. rewrite !py_max_Finite.
  destruct (signal >? 0)%Z, (Rltb 0 c); cbn -[Rmax];
    destruct (signal <? 0)%Z, (Rltb 0 p); cbn -[Rmax];
    destruct (Req_dec_T pr 0); try done;
    repeat f_equal; lra.
Qed.

Lemma asset_values_Finite (self : Backtester xreal) c p pv tv pct fx rows :
  commission_pct self = Finite pct → commission_fixed self = Finite fx →
  Forall (λ r, r.1 ≠ 0) rows →
  asset_values self (mkAssetState (Finite c) (Finite p) pv tv)
    (map finite_row rows)
  = map Finite (valuesR pct fx (c, p) rows).
Proof.
  intros Hpct Hfx Hrows. unfold asset_values. revert c p pv tv.
  induction Hrows as [|[pr sg] rows Hpr _ IH]; intros c p pv tv; [done|].
  cbn [map asset_path valuesR finite_row fst snd close signal].
  rewrite (traded_Finite _ _ _ _ _ _ _ pct fx) by done.
  unfold revalued. cbn [cash positions].
  change (Finite ?a * Finite ?b)%py with (Finite (a * b)).
  change (Finite ?a + Finite ?b)%py with (Finite (a + b)).
  cbn [total_value]. by rewrite IH, <- surjective_pairing.
Qed.
(** Once the combined series is as long as the frame, the values of an
    asset are added to it entry by entry. *)
Lemma absorb_all_add {F} `{PyFloat F} (n : nat) (done_ todo vs : list F) :
  (n ≤ length (done_ ++ todo))%nat →
  length vs = length todo →
  absorb_all n (done_ ++ todo) (length done_) vs
  = done_ ++ zip_with fadd todo vs.
Proof.
  revert done_ todo. induction vs as [|v vs IH]; intros done_ todo Hn Hlen.
  - destruct todo; [|done]. done.
  - destruct todo as [|d todo]; [done|]. cbn [absorb_all zip_with].
    unfold absorb at 1.
    destruct (Nat.ltb_spec (length (done_ ++ d :: todo)) n) as [?|_]; [lia|].
    rewrite <- (Nat.add_0_r (length done_)) at 1.
    rewrite alter_app_r. cbn [alter list_alter].
    replace (S (length done_)) with (length (done_ ++ [(d + v)%py]))
      by (rewrite length_app; cbn; lia).
    rewrite (cons_middle _ done_ todo), app_assoc.
    rewrite IH.
    + by rewrite <- app_assoc.
    + rewrite !length_app in *. cbn in *. lia.
    + cbn in Hlen. lia.
Qed.

Lemma zip_with_fadd_Finite (xs ys : list R) :
  zip_with fadd (map Finite xs) (map Finite ys)
  = map Finite (zip_with Rplus xs ys).
Proof.
  revert ys. induction xs as [|x xs IH]; intros [|y ys]; try done.
  cbn [map zip_with]. by rewrite IH.
Qed.

Lemma scaled_add (j : nat) (ws : list R) :
  zip_with Rplus (map (λ w, INR j * w) ws) ws = map (λ w, INR (S j) * w) ws.
Proof.
  induction ws as [|w ws IH]; [done|].
  cbn [map zip_with]. rewrite IH, S_INR. f_equal. lra.
Qed.

(** [names] further copies of an asset of values [ws], on top of [j]. *)
Lemma absorb_copies (self : Backtester xreal) (n : nat) df ws names (j : nat) :
  asset_values self (fresh_asset self n) df = map Finite ws →
  fold_left (absorb_asset self n) (map (λ asset, (asset, df)) names)
    (map Finite (map (λ w, INR j * w) ws))
  = map Finite (map (λ w, INR (j + length names) * w) ws).
Proof.
  intros Hws.
  assert (length ws = length df) as Hlen.
  { by rewrite <- (length_map Finite), <- Hws, length_asset_values. }
  revert j. induction names as [|asset names IH]; intros j.
  - cbn. by rewrite Nat.add_0_r.
  - cbn [map fold_left length]. unfold absorb_asset at 2. cbn [snd].
    rewrite Hws.
    rewrite (absorb_all_add _ [] (map Finite (map (λ w, INR j * w) ws))).
    + cbn [app]. rewrite zip_with_fadd_Finite, scaled_add, IH.
      by rewrite Nat.add_succ_r.
    + cbn. rewrite !length_map. lia.
    + by rewrite !length_map.
Qed.

(** The combined series of a run on one frame. *)
Lemma backtest_frame_values (c pct fx : R) (rows : list (R * Z)) :
  Forall (λ r, r.1 ≠ 0) rows →
  ∃ self',
    backtest (init (Finite c) (Finite pct) (Finite fx))
      (Frame (map finite_row rows)) = Ok self'
    ∧ daily_portfolio_values self' = map Finite (valuesR pct fx (c, 0) rows).
Proof.
  intros Hrows.
  destruct (backtest_frame xreal_numpy (Finite c) (Finite pct) (Finite fx)
              (map finite_row rows)) as (self' & Hrun & _ & Hd).
  exists self'. split; [done|].
  rewrite Hd, fresh_asset_single.
  by apply asset_values_Finite.
Qed.

(** The combined series of a run on copies of one frame: as many times the
    values of one copy, which starts from its share of the capital. *)
Lemma backtest_copies_values (c pct fx : R) (rows : list (R * Z)) names :
  names ≠ [] →
  Forall (λ r, r.1 ≠ 0) rows →
  ∃ self',
    backtest (init (Finite c) (Finite pct) (Finite fx))
      (copies names (map finite_row rows)) = Ok self'
    ∧ daily_portfolio_values self'
      = map Finite
          (map (λ w, INR (length names) * w)
             (valuesR pct fx (c / INR (length names), 0) rows)).
Proof.
  intros Hnames Hrows. unfold backtest, copies.
  set (self := init (Finite c) (Finite pct) (Finite fx)).
  set (df := map finite_row rows).
  destruct (backtest_entries xreal_numpy self (map (λ asset, (asset, df)) names))
    as (self' & Hrun & Hd).
  exists self'. split; [done|]. rewrite Hd, length_map.
  set (ws := valuesR pct fx (c / INR (length names), 0) rows).
  assert (asset_values self (fresh_asset self (length names)) df
          = map Finite ws) as Hws.
  { unfold self. rewrite fresh_asset_Finite by by destruct names.
    by apply asset_values_Finite. }
  destruct names as [|asset names]; [done|].
  cbn [map fold_left daily_portfolio_values self init].
  unfold absorb_asset at 2. cbn [snd]. rewrite Hws.
  rewrite absorb_all_append.
  - cbn [app].
    replace ws with (map (λ w, INR 1 * w) ws) at 1.
    + by rewrite (absorb_copies _ _ _ _ _ 1 Hws).
    + clear. induction ws as [|w ws IH]; [done|].
      cbn [map]. rewrite IH. f_equal. cbn. lra.
  - cbn. rewrite length_map. unfold df, ws. rewrite length_map.
    clear. generalize (c / INR (length (asset :: names)), 0).
    induction rows as [|[pr sg] rows IH]; intros cp; [done|].
    cbn. specialize (IH (tradedR pct fx cp sg pr)). lia.
Qed.
(** With no fixed fee the trade is homogeneous: [k] times the cash and the
    shares before, [k] times after. *)
Lemma tradedR_scale (pct k c p : R) (sg : Z) (pr : R) :
  0 < k →
  tradedR pct 0 (k * c, k * p) sg pr
  = (k * (tradedR pct 0 (c, p) sg pr).1, k * (tradedR pct 0 (c, p) sg pr).2).
Proof.
  intros Hk. unfold tradedR. cbn [fst snd].
  assert (∀ x, Rltb 0 (k * x) = Rltb 0 x) as Hsign.
  { intros x. unfold Rltb. destruct (Rlt_dec 0 (k * x)), (Rlt_dec 0 x);
      (done || exfalso; nra). }
  assert (∀ x, Rmax (k * x) 0 = k * Rmax x 0) as Hmax.
  { intros x. rewrite <- (Rmult_0_r k) at 1. apply RmaxRmult. lra. }
  rewrite !Hsign.
  replace (k * c * pct) with (k * (c * pct)) by lra.
  replace (k * p * pr * pct) with (k * (p * pr * pct)) by lra.
  rewrite !Hmax.
  destruct (sg >? 0)%Z, (Rltb 0 c); cbn [andb fst snd];
    destruct (sg <? 0)%Z, (Rltb 0 p); cbn [andb fst snd];
    f_equal; unfold Rdiv; lra.
Qed.

Lemma valuesR_scale (pct k c p : R) (rows : list (R * Z)) :
  0 < k →
  valuesR pct 0 (k * c, k * p) rows
  = map (λ w, k * w) (valuesR pct 0 (c, p) rows).
Proof.
  intros Hk. revert c p. induction rows as [|[pr sg] rows IH]; intros c p; [done|].
  cbn [valuesR map]. rewrite (tradedR_scale _ _ _ _ _ _ Hk). cbn [fst snd].
  rewrite IH, <- surjective_pairing. f_equal. lra.
Qed.

Lemma priced_rows (df : list (Row xreal)) :
  Forall priced_row df →
  ∃ rows, df = map finite_row rows ∧ Forall (λ r, r.1 ≠ 0) rows.
Proof.
  induction 1 as [|[cl sg] df (pr & Hcl & Hpr) _ (rows & -> & Hrows)].
  - by exists [].
  - exists ((pr, sg) :: rows). cbn in Hcl. subst cl. split; [done|].
    constructor; [cbn; lra|done].
Qed.

(** C4 fails as stated: with the fixed fee of 1, a capital of 1000 bought
    in one trade leaves 999, and bought as two halves leaves 998, on binary64
    and in exact arithmetic alike. *)
Lemma fixed_fee_breaks_scale_invariance :
  (Run.values (backtest Run.small (Frame Run.one_buy))
   = Some Run.whole_left
   ∧ Run.values (backtest Run.small (copies ["A"; "B"]%string Run.one_buy))
     = Some Run.halves_left)
  ∧ ∃ self1 self2,
      backtest (init (Finite 1000) (Finite 0.001) (Finite 1))
        (Frame [mkRow (Finite 100) 1]) = Ok self1
      ∧ backtest (init (Finite 1000) (Finite 0.001) (Finite 1))
          (copies ["A"; "B"]%string [mkRow (Finite 100) 1]) = Ok self2
      ∧ daily_portfolio_values self1 = [Finite 999]
      ∧ daily_portfolio_values self2 = [Finite 998].
Proof.
  split; [split; by vm_compute|].
  destruct (backtest_frame_values 1000 0.001 1 [(100, 1%Z)])
    as (self1 & Hrun1 & Hd1); [repeat constructor; cbn; lra|].
  destruct (backtest_copies_values 1000 0.001 1 [(100, 1%Z)] ["A"; "B"]%string)
    as (self2 & Hrun2 & Hd2); [done|repeat constructor; cbn; lra|].
  exists self1, self2. split; [exact Hrun1|]. split; [exact Hrun2|].
  rewrite Hd1, Hd2. cbn [valuesR map length INR]. unfold tradedR.
  cbn [fst snd Z.gtb Z.compare andb].
  rewrite !Rltb_true by lra. cbn [fst snd andb].
  rewrite Rmax_right by lra. rewrite Rmax_right by lra.
  split; do 2 f_equal; field.
Qed.

(** C4, amended: with no fixed fee ([commission_fixed = 0]), a run on [N >= 1]
    identical assets, each given the same series of positive prices, yields
    the same combined series as a run on a single asset with the full
    capital. *)
Theorem identical_assets_scale_invariance (c pct : R) (df : list (Row xreal))
    (names : list string) :
  names ≠ [] → NoDup names →
  0 < c →
  Forall priced_row df →
  ∃ self1 selfN,
    backtest (init (Finite c) (Finite pct) (Finite 0)) (Frame df) = Ok self1
    ∧ backtest (init (Finite c) (Finite pct) (Finite 0)) (copies names df)
      = Ok selfN
    ∧ daily_portfolio_values selfN = daily_portfolio_values self1.
Proof.
  intros Hnames _ _ Hdf.
  destruct (priced_rows df Hdf) as (rows & -> & Hrows).
  destruct (backtest_frame_values c pct 0 rows Hrows) as (self1 & Hrun1 & Hd1).
  destruct (backtest_copies_values c pct 0 rows names Hnames Hrows)
    as (selfN & HrunN & HdN).
  exists self1, selfN. split; [done|]. split; [done|].
  rewrite Hd1, HdN. f_equal.
  assert (0 < INR (length names)) as Hn.
  { apply lt_0_INR. destruct names; [done|cbn; lia]. }
  replace (c / INR (length names), 0)
    with (/ INR (length names) * c, / INR (length names) * 0)
    by (f_equal; unfold Rdiv; lra).
  rewrite valuesR_scale by by apply Rinv_0_lt_compat.
  rewrite map_map. generalize (valuesR pct 0 (c, 0) rows). intros ws.
  induction ws as [|w ws IH]; [done|].
  cbn [map]. rewrite IH. f_equal. field. lra.
Qed.

Lemma identical_assets_scale_invariance_witness :
  ∃ self1 selfN,
    backtest (init (Finite 1000) (Finite 0.001) (Finite 0))
      (Frame [mkRow (Finite 100) 1; mkRow (Finite 110) (-1)]) = Ok self1
    ∧ backtest (init (Finite 1000) (Finite 0.001) (Finite 0))
        (copies ["A"; "B"]%string
           [mkRow (Finite 100) 1; mkRow (Finite 110) (-1)])
      = Ok selfN
    ∧ daily_portfolio_values selfN = daily_portfolio_values self1.
Proof.
  apply (identical_assets_scale_invariance 1000 0.001
           [mkRow (Finite 100) 1; mkRow (Finite 110) (-1)] ["A"; "B"]%string).
  - discriminate.
  - apply NoDup_cons. split; [|apply NoDup_singleton].
    rewrite list_elem_of_singleton. discriminate.
  - lra.
  - repeat constructor; [exists 100|exists 110]; cbn; split; (reflexivity || lra).
Defined.
End Copies.

(** * Further properties of the code *)

(** ** Missing dictionary entries *)

Section Missing.
Context {F : Type} `{PyFloat F}.

Lemma getitem_None {V} (d : gmap string V) k :
  d !! k = None → getitem d k = Raise KeyError.
Proof. intros Hk. unfold getitem. by rewrite Hk. Qed.

(** X1: on an asset that [assets_data] does not hold, [execute_trade] raises
    [KeyError] for every signal but 0; with signal 0 neither test reads the
    dictionary and the call returns, changing nothing. *)
Theorem execute_trade_missing_asset (self : Backtester F) asset signal price :
  assets_data self !! asset = None →
  execute_trade self asset signal price
  = if (signal =? 0)%Z then Ok self else Raise KeyError.
Proof.
  intros Hk. unfold execute_trade, getitem. rewrite Hk.
  destruct (Z.lt_trichotomy signal 0) as [Hs|[Hs|Hs]].
  - rewrite Zgtb_nonpos, Zltb_neg by lia. cbn.
    by destruct (Z.eqb_spec signal 0); [lia|].
  - by subst signal.
  - rewrite Zgtb_pos by lia. cbn.
    by destruct (Z.eqb_spec signal 0); [lia|].
Qed.

(** X2: [update_portfolio] needs the asset in both dictionaries: it raises
    [KeyError] when [assets_data] does not hold it, and when
    [portfolio_history] does not. *)
Theorem update_portfolio_missing_asset (self : Backtester F) asset price :
  assets_data self !! asset = None ∨ portfolio_history self !! asset = None →
  update_portfolio self asset price = Raise KeyError.
Proof.
  intros Hmiss. unfold update_portfolio.
  destruct (assets_data self !! asset) as [st|] eqn:Hk.
  - destruct Hmiss as [Hmiss|Hmiss]; [done|].
    rewrite (modify_asset_Some _ _ _ _ Hk). cbn.
    rewrite modify_asset_insert. cbn.
    by rewrite (getitem_None _ _ Hmiss).
  - unfold modify_asset, getitem. by rewrite Hk.
Qed.

End Missing.

Lemma execute_trade_missing_asset_witness :
  execute_trade Run.default "AAPL" 1 PrimFloat.one
  = if (1 =? 0)%Z then Ok Run.default else Raise KeyError.
Proof.
  apply (execute_trade_missing_asset Run.default "AAPL" 1 PrimFloat.one).
  apply lookup_empty.
Defined.

Lemma update_portfolio_missing_asset_witness :
  update_portfolio Run.default "AAPL" PrimFloat.one = Raise KeyError.
Proof.
  apply (update_portfolio_missing_asset Run.default "AAPL" PrimFloat.one).
  left. apply lookup_empty.
Defined.

(** ** What a trade leaves alone *)

Section Frame.
Context {F : Type} `{PyFloat F}.
Hypothesis numpy_scalars : zero_division = false.

(** X3: on numpy scalars [execute_trade] rewrites one entry of [assets_data]
    and nothing else: the other assets, the histories, the combined series
    and the fees are as before, and in the entry itself [position_value] and
    [total_value] keep their old values until [update_portfolio] runs. *)
Theorem execute_trade_frame (self : Backtester F) asset st signal price :
  assets_data self !! asset = Some st →
  ∃ self' st',
    execute_trade self asset signal price = Ok self'
    ∧ assets_data self' = <[asset := st']> (assets_data self)
    ∧ position_value st' = position_value st
    ∧ total_value st' = total_value st
    ∧ portfolio_history self' = portfolio_history self
    ∧ daily_portfolio_values self' = daily_portfolio_values self
    ∧ initial_capital self' = initial_capital self
    ∧ commission_pct self' = commission_pct self
    ∧ commission_fixed self' = commission_fixed self.
Proof.
  intros Hk. rewrite (execute_trade_traded numpy_scalars _ _ _ _ _ Hk).
  eexists _, (traded self st signal price). split; [reflexivity|].
  split; [reflexivity|]. unfold traded.
  destruct ((signal >? 0)%Z && fltb (of_Z 0) (cash st)); [done|].
  by destruct ((signal <? 0)%Z && fltb (of_Z 0) (positions st)).
Qed.
End Frame.

Lemma execute_trade_frame_witness :
  ∃ self' st',
    execute_trade (account 10000 0) "AAPL" 1 (Finite 100) = Ok self'
    ∧ assets_data self' = <["AAPL"%string := st']> (assets_data (account 10000 0))
    ∧ position_value st' = Finite 0
    ∧ total_value st' = Finite 0
    ∧ portfolio_history self' = portfolio_history (account 10000 0)
    ∧ daily_portfolio_values self' = daily_portfolio_values (account 10000 0)
    ∧ initial_capital self' = initial_capital (account 10000 0)
    ∧ commission_pct self' = commission_pct (account 10000 0)
    ∧ commission_fixed self' = commission_fixed (account 10000 0).
Proof.
  apply (execute_trade_frame xreal_numpy (account 10000 0) "AAPL"
           (mkAssetState (Finite 10000) (Finite 0) (Finite 0) (Finite 0))
           1 (Finite 100)).
  reflexivity.
Defined.

(** ** The long/flat state machine *)

Section Machine.
Local Open Scope R_scope.

Implicit Types (self : Backtester xreal) (st : AssetState xreal).

Lemma Rltb_irrefl (x : R) : Rltb x x = false.
Proof. apply Rltb_false. lra. Qed.

(** A second signal of the same sign finds nothing to trade. *)
Lemma tradedR_repeated (pct fx : R) (cp : R * R) (s1 s2 : Z) (pr1 pr2 : R) :
  (0 < s1 ∧ 0 < s2)%Z ∨ (s1 < 0 ∧ s2 < 0)%Z →
  tradedR pct fx (tradedR pct fx cp s1 pr1) s2 pr2 = tradedR pct fx cp s1 pr1.
Proof.
  intros [[H1 H2]|[H1 H2]]; unfold tradedR.
  - rewrite (Zgtb_pos s1), (Zgtb_pos s2), (Zltb_nonneg s1), (Zltb_nonneg s2)
      by lia.
    cbn [andb]. destruct (Rltb 0 cp.1) eqn:Hc; cbn [fst snd].
    + by rewrite Rltb_irrefl.
    + by rewrite Hc.
  - rewrite (Zgtb_nonpos s1), (Zgtb_nonpos s2), (Zltb_neg s1), (Zltb_neg s2)
      by lia.
    cbn [andb]. destruct (Rltb 0 cp.2) eqn:Hp; cbn [fst snd].
    + by rewrite Rltb_irrefl.
    + by rewrite Hp.
Qed.

(** A trade leaves the asset in cash or in shares, never in both, when it
    starts so. *)
Lemma tradedR_exclusive (pct fx : R) (cp : R * R) (sg : Z) (pr : R) :
  cp.1 = 0 ∨ cp.2 = 0 →
  (tradedR pct fx cp sg pr).1 = 0 ∨ (tradedR pct fx cp sg pr).2 = 0.
Proof.
  intros Hcp. unfold tradedR.
  destruct ((sg >? 0)%Z && Rltb 0 cp.1); [by left|].
  destruct ((sg <? 0)%Z && Rltb 0 cp.2); [by right|done].
Qed.

Lemma execute_trade_Finite self asset st sg c p pr pct fx :
  assets_data self !! asset = Some st →
  cash st = Finite c → positions st = Finite p →
  commission_pct self = Finite pct → commission_fixed self = Finite fx →
  pr ≠ 0 →
  execute_trade self asset sg (Finite pr)
  = Ok (with_assets_data
          (<[asset := mkAssetState (Finite (tradedR pct fx (c, p) sg pr).1)
                        (Finite (tradedR pct fx (c, p) sg pr).2)
                        (position_value st) (total_value st)]>
             (assets_data self)) self).
Proof.
  intros Hk Hc Hp Hpct Hfx Hpr.
  rewrite (execute_trade_traded xreal_numpy _ _ _ _ _ Hk).
  destruct st as [c0 p0 pv tv]. cbn in Hc, Hp. subst c0 p0.
  by rewrite (traded_Finite _ _ _ _ _ _ _ pct fx).
Qed.

(** X4: no pyramiding.  After a trade on a positive signal a further
    positive signal changes nothing, whatever the two prices (0 apart);
    likewise for two negative signals. *)
Theorem execute_trade_repeated_signal self asset st s1 s2 c p pr1 pr2 pct fx :
  assets_data self !! asset = Some st →
  cash st = Finite c → positions st = Finite p →
  commission_pct self = Finite pct → commission_fixed self = Finite fx →
  pr1 ≠ 0 → pr2 ≠ 0 →
  (0 < s1 ∧ 0 < s2)%Z ∨ (s1 < 0 ∧ s2 < 0)%Z →
  ∃ self1,
    execute_trade self asset s1 (Finite pr1) = Ok self1
    ∧ execute_trade self1 asset s2 (Finite pr2) = Ok self1.
Proof.
  intros Hk Hc Hp Hpct Hfx Hpr1 Hpr2 Hsigns.
  rewrite (execute_trade_Finite _ _ _ _ c p _ pct fx) by done.
  eexists. split; [reflexivity|].
  erewrite execute_trade_Finite;
    [|apply lookup_insert_eq|reflexivity|reflexivity|exact Hpct|exact Hfx|done].
  rewrite <- surjective_pairing, tradedR_repeated by done.
  cbn. by rewrite insert_insert_eq.
Qed.

Lemma execute_trade_repeated_signal_witness :
  ∃ self1,
    execute_trade (account 10000 0) "AAPL" 1 (Finite 100) = Ok self1
    ∧ execute_trade self1 "AAPL" 2 (Finite 110) = Ok self1.
Proof.
  apply (execute_trade_repeated_signal (account 10000 0) "AAPL"
           (mkAssetState (Finite 10000) (Finite 0) (Finite 0) (Finite 0))
           1 2 10000 0 100 110 0.001 1); try reflexivity; try lra.
  left. lia.
Defined.

(** X5: in exact arithmetic a round trip at one price costs the two
    commissions and nothing else.  From [c > 0] in cash and no shares, a buy
    and then a sale at the same price leave [c - fee c - fee (c - fee c)] in
    cash and no shares, where
    [fee v = max (v * commission_pct) commission_fixed], provided the first
    fee leaves something to buy with.  (On doubles the quotient by the price
    and its product with the price are each rounded.) *)
Theorem buy_then_sell_costs_two_fees self asset st s1 s2 c pr pct fx :
  assets_data self !! asset = Some st →
  cash st = Finite c → positions st = Finite 0 →
  commission_pct self = Finite pct → commission_fixed self = Finite fx →
  0 < pr → (0 < s1)%Z → (s2 < 0)%Z →
  0 < c → Rmax (c * pct) fx < c →
  ∃ self1 self2 st2,
    execute_trade self asset s1 (Finite pr) = Ok self1
    ∧ execute_trade self1 asset s2 (Finite pr) = Ok self2
    ∧ assets_data self2 !! asset = Some st2
    ∧ cash st2
      = Finite (c - Rmax (c * pct) fx
                - Rmax ((c - Rmax (c * pct) fx) * pct) fx)
    ∧ positions st2 = Finite 0.
Proof.
  intros Hk Hc Hp Hpct Hfx Hpr Hs1 Hs2 Hc0 Hfee.
  rewrite (execute_trade_Finite _ _ _ _ c 0 _ pct fx) by (done || lra).
  eexists. eexists. eexists. split; [reflexivity|].
  erewrite execute_trade_Finite;
    [|apply lookup_insert_eq|reflexivity|reflexivity|exact Hpct|exact Hfx|lra].
  split; [reflexivity|]. cbn [assets_data with_assets_data].
  rewrite lookup_insert_eq. split; [reflexivity|].
  unfold tradedR. cbn [fst snd].
  rewrite (Zgtb_pos s1), (Zgtb_nonpos s2), (Zltb_neg s2) by lia.
  rewrite (Rltb_true 0 c) by done. cbn [andb fst snd].
  assert (0 < 0 + (c - Rmax (c * pct) fx) / pr) as Hshares.
  { rewrite Rplus_0_l. apply Rdiv_lt_0_compat; lra. }
  rewrite (Rltb_true _ _ Hshares). cbn [andb fst snd cash positions].
  split; [|done]. f_equal.
  replace ((0 + (c - Rmax (c * pct) fx) / pr) * pr)
    with (c - Rmax (c * pct) fx) by (field; lra).
  lra.
Qed.

Lemma buy_then_sell_costs_two_fees_witness :
  ∃ self1 self2 st2,
    execute_trade (account 10000 0) "AAPL" 1 (Finite 100) = Ok self1
    ∧ execute_trade self1 "AAPL" (-1) (Finite 100) = Ok self2
    ∧ assets_data self2 !! "AAPL"%string = Some st2
    ∧ cash st2
      = Finite (10000 - Rmax (10000 * 0.001) 1
                - Rmax ((10000 - Rmax (10000 * 0.001) 1) * 0.001) 1)
    ∧ positions st2 = Finite 0.
Proof.
  apply (buy_then_sell_costs_two_fees (account 10000 0) "AAPL"
           (mkAssetState (Finite 10000) (Finite 0) (Finite 0) (Finite 0))
           1 (-1) 10000 100 0.001 1); try reflexivity; try lra; try lia.
  apply Rmax_lub_lt; lra.
Defined.
End Machine.

(** ** The combined series and the histories *)

Section Series.
Context {F : Type} `{PyFloat F}.
Hypothesis numpy_scalars : zero_division = false.

Implicit Types (self : Backtester F) (st : AssetState F).

Lemma length_absorb_all (n : nat) (daily vs : list F) (k : nat) :
  length (absorb_all n daily k vs)
  = length daily `max` (n `min` (length daily + length vs)).
Proof.
  revert daily k. induction vs as [|v vs IH]; intros daily k.
  - cbn. lia.
  - cbn [absorb_all length]. rewrite IH. unfold absorb.
    destruct (Nat.ltb_spec (length daily) n) as [Hlt|Hge].
    + rewrite length_app. cbn. lia.
    + rewrite length_alter. lia.
Qed.

Lemma length_absorb_asset self (n : nat) (daily : list F) entry :
  length (absorb_asset self n daily entry) = length daily `max` length entry.2.
Proof.
  unfold absorb_asset. rewrite length_absorb_all, length_asset_values. lia.
Qed.

Lemma length_absorb_assets self (n : nat) es (daily : list F) :
  length (fold_left (absorb_asset self n) es daily)
  = length daily `max` max_list_with (λ e, length e.2) es.
Proof.
  revert daily. induction es as [|e es IH]; intros daily.
  - cbn. lia.
  - cbn [fold_left max_list_with]. rewrite IH, length_absorb_asset. lia.
Qed.

(** X6: a run leaves a combined series as long as the longest frame (or as
    the series it started with, if that was longer): entries are appended
    only while the series is shorter than the frame at hand. *)
Theorem backtest_series_length self (data : Data F) :
  ∃ self',
    backtest self data = Ok self'
    ∧ length (daily_portfolio_values self')
      = length (daily_portfolio_values self)
        `max` max_list_with (λ e, length e.2) (entries data).
Proof.
  destruct (backtest_entries numpy_scalars self (entries data))
    as (self' & Hrun & Hd).
  exists self'. split; [by destruct data|].
  rewrite Hd. apply length_absorb_assets.
Qed.

(** The whole state after the rows of one entry. *)
Lemma backtest_asset_state (n : nat) self asset df :
  backtest_asset n self (asset, df)
  = Ok (mkBacktester (initial_capital self) (commission_pct self)
          (commission_fixed self)
          (<[asset := default (fresh_asset self n)
                        (last (asset_path self (fresh_asset self n) df))]>
             (assets_data self))
          (<[asset := asset_values self (fresh_asset self n) df]>
             (portfolio_history self))
          (absorb_asset self n (daily_portfolio_values self) (asset, df))).
Proof.
  unfold backtest_asset. rewrite (truediv_numpy numpy_scalars). cbn.
  erewrite (backtest_rows numpy_scalars);
    [|apply lookup_insert_eq|apply lookup_insert_eq|done].
  cbn. rewrite !insert_insert_eq.
  unfold absorb_asset, asset_values, fresh_asset. cbn.
  by rewrite !(asset_path_params self).
Qed.

(** The last state of an asset is revalued at the last close price. *)
Lemma last_asset_path self st rows st' :
  last (asset_path self st rows) = Some st' →
  ∃ row,
    last rows = Some row
    ∧ position_value st' = fmul (positions st') (close row)
    ∧ total_value st' = fadd (cash st') (position_value st').
Proof.
  revert st. induction rows as [|row rows IH]; intros st Hlast; [done|].
  cbn [asset_path] in Hlast. rewrite last_cons in Hlast.
  destruct (last (asset_path self _ rows)) as [st''|] eqn:Hrest.
  - injection Hlast as <-. destruct (IH _ Hrest) as (row' & Hrow' & Hpv & Htv).
    exists row'. rewrite last_cons, Hrow'. done.
  - injection Hlast as <-. apply last_None in Hrest.
    destruct rows; [|done]. by exists row.
Qed.

(** X7: after a run on one frame from a new backtester, the history of
    ["SINGLE_ASSET"] is the combined series itself, and the asset is valued
    at the last close price: [position_value = positions * close],
    [total_value = cash + position_value], which is also the last entry of
    the series. *)
Theorem backtest_frame_accounts (ic pct fx : F) (df : list (Row F)) :
  ∃ self',
    backtest (init ic pct fx) (Frame df) = Ok self'
    ∧ portfolio_history self' !! "SINGLE_ASSET"%string
      = Some (daily_portfolio_values self')
    ∧ ∀ row, last df = Some row →
        ∃ st',
          assets_data self' !! "SINGLE_ASSET"%string = Some st'
          ∧ position_value st' = fmul (positions st') (close row)
          ∧ total_value st' = fadd (cash st') (position_value st')
          ∧ last (daily_portfolio_values self') = Some (total_value st').
Proof.
  unfold backtest. cbn [for_each length].
  rewrite backtest_asset_state. cbn.
  eexists. split; [reflexivity|]. cbn.
  change (map total_value (asset_path ?a ?b ?c)) with (asset_values a b c).
  rewrite absorb_all_append by (rewrite length_asset_values; cbn; lia).
  cbn [app]. rewrite !lookup_insert_eq. split; [done|].
  intros row Hrow. set (st0 := fresh_asset (init ic pct fx) 1).
  destruct (last (asset_path (init ic pct fx) st0 df)) as [st'|] eqn:Hlast.
  - destruct (last_asset_path _ _ _ _ Hlast) as (row' & Hrow' & Hpv & Htv).
    assert (row' = row) as -> by congruence.
    exists st'. cbn. split; [done|]. split; [done|]. split; [done|].
    unfold asset_values.
    change (map total_value ?l) with (total_value <$> l).
    by rewrite fmap_last, Hlast.
  - apply last_None in Hlast. destruct df; [done|]. done.
Qed.

(** X8: [backtest] does not reset [daily_portfolio_values].  A second run
    on the same frame adds its values to those of the first: every entry of
    the series is doubled. *)
Theorem backtest_twice_accumulates (ic pct fx : F) (df : list (Row F)) :
  ∃ self1 self2,
    backtest (init ic pct fx) (Frame df) = Ok self1
    ∧ backtest self1 (Frame df) = Ok self2
    ∧ daily_portfolio_values self2
      = zip_with fadd (daily_portfolio_values self1)
          (daily_portfolio_values self1).
Proof.
  unfold backtest. cbn [for_each length]. rewrite !backtest_asset_state.
  eexists. eexists. split; [reflexivity|].
  cbn [mbind result_bind]. rewrite backtest_asset_state.
  split; [reflexivity|].
  cbn [daily_portfolio_values init].
  unfold absorb_asset, fresh_asset. cbn [snd initial_capital init].
  rewrite (absorb_all_append _ []) by (rewrite length_asset_values; cbn; lia).
  cbn [app]. unfold asset_values.
  rewrite (asset_path_params (init ic pct fx) (mkBacktester ic pct fx _ _ _))
    by done.
  fold (asset_values (init ic pct fx)
          (mkAssetState (fdiv ic (of_Z (Z.of_nat 1))) (of_Z 0) (of_Z 0) (of_Z 0))
          df).
  set (vs := asset_values _ _ df).
  rewrite (absorb_all_add _ [] vs vs); [done| |done].
  cbn. unfold vs. rewrite length_asset_values. lia.
Qed.
End Series.

Lemma backtest_series_length_witness :
  ∃ self',
    backtest Run.default (Frame Run.scenario) = Ok self'
    ∧ length (daily_portfolio_values self')
      = length (daily_portfolio_values Run.default)
        `max` max_list_with (λ e, length e.2) (entries (Frame Run.scenario)).
Proof.
  apply (backtest_series_length binary64_numpy Run.default (Frame Run.scenario)).
Defined.

Lemma backtest_frame_accounts_witness :
  ∃ self',
    backtest Run.default (Frame Run.scenario) = Ok self'
    ∧ portfolio_history self' !! "SINGLE_ASSET"%string
      = Some (daily_portfolio_values self')
    ∧ ∀ row, last Run.scenario = Some row →
        ∃ st',
          assets_data self' !! "SINGLE_ASSET"%string = Some st'
          ∧ position_value st' = fmul (positions st') (close row)
          ∧ total_value st' = fadd (cash st') (position_value st')
          ∧ last (daily_portfolio_values self') = Some (total_value st').
Proof.
  apply (backtest_frame_accounts binary64_numpy (initial_capital Run.default)
           (commission_pct Run.default) (commission_fixed Run.default)
           Run.scenario).
Defined.

Lemma backtest_twice_accumulates_witness :
  ∃ self1 self2,
    backtest Run.default (Frame Run.scenario) = Ok self1
    ∧ backtest self1 (Frame Run.scenario) = Ok self2
    ∧ daily_portfolio_values self2
      = zip_with fadd (daily_portfolio_values self1)
          (daily_portfolio_values self1).
Proof.
  apply (backtest_twice_accumulates binary64_numpy
           (initial_capital Run.default) (commission_pct Run.default)
           (commission_fixed Run.default) Run.scenario).
Defined.

(** ** The combined series as a sum of histories *)

Section Histories.
Context {F : Type} `{PyFloat F}.
Hypothesis numpy_scalars : zero_division = false.

Implicit Types (self : Backtester F) (es : list (string * list (Row F))).

(** After the entries of a dictionary, every asset has the history of its
    own values, and the assets not named keep theirs. *)
Lemma backtest_assets_histories (n : nat) es self :
  NoDup es.*1 →
  ∃ self',
    for_each (backtest_asset n) es self = Ok self'
    ∧ (∀ e, e ∈ es →
         portfolio_history self' !! e.1
         = Some (asset_values self (fresh_asset self n) e.2))
    ∧ (∀ name, name ∉ es.*1 →
         portfolio_history self' !! name = portfolio_history self !! name)
    ∧ daily_portfolio_values self'
      = fold_left (absorb_asset self n) es (daily_portfolio_values self).
Proof.
  revert self. induction es as [|[asset df] es IH]; intros self Hnodup.
  - exists self. split; [done|]. split; [|done]. intros e He. by inversion He.
  - cbn [fmap list_fmap fst] in Hnodup. apply NoDup_cons in Hnodup as [Hfresh Hnodup].
    cbn [for_each]. rewrite (backtest_asset_state numpy_scalars). cbn [mbind result_bind].
    set (self1 := mkBacktester _ _ _ _ _ _).
    destruct (IH self1 Hnodup) as (self' & Hrun & Hin & Hout & Hd).
    assert (∀ st rows, asset_values self1 st rows = asset_values self st rows)
      as Hvalues.
    { intros st rows. unfold asset_values.
      by rewrite (asset_path_params self self1). }
    assert (fresh_asset self1 n = fresh_asset self n) as Hfresh1 by done.
    exists self'. split; [exact Hrun|]. split; [|split].
    + intros e He. apply elem_of_cons in He as [->|He].
      * cbn [fst snd]. rewrite Hout by done. unfold self1. cbn.
        by rewrite lookup_insert_eq.
      * by rewrite (Hin e He), Hvalues, Hfresh1.
    + intros name Hname. cbn [fmap list_fmap fst] in Hname.
      apply not_elem_of_cons in Hname as [Hne Hname].
      rewrite (Hout name Hname). unfold self1. cbn.
      by rewrite lookup_insert_ne.
    + rewrite Hd. cbn [fold_left]. unfold self1 at 2. cbn [daily_portfolio_values].
      generalize (absorb_asset self n (daily_portfolio_values self) (asset, df)).
      clear -Hvalues Hfresh1. induction es as [|e es IHe]; intros daily; [done|].
      cbn [fold_left]. rewrite <- IHe. f_equal.
      unfold absorb_asset. by rewrite Hvalues, Hfresh1.
Qed.

(** The values of frames of one length add up entry by entry. *)
Lemma absorb_assets_sum self (n L : nat) es (daily : list F) :
  Forall (λ e, length e.2 = L) es →
  length daily = L →
  fold_left (absorb_asset self n) es daily
  = fold_left (zip_with fadd)
      (map (λ e, asset_values self (fresh_asset self n) e.2) es) daily.
Proof.
  intros Hes. revert daily. induction Hes as [|e es He _ IH]; intros daily Hlen.
  - done.
  - cbn [fold_left map]. unfold absorb_asset at 2.
    rewrite (absorb_all_add _ [] daily).
    + cbn [app]. apply IH. rewrite length_zip_with, length_asset_values. lia.
    + cbn. lia.
    + rewrite length_asset_values. lia.
Qed.

(** X9: on a dictionary of frames of one length, under distinct names, the
    combined series is the entrywise sum of the assets' histories, taken in
    the order of the dictionary. *)
Theorem backtest_series_sums_histories (ic pct fx : F)
    (d : list (string * list (Row F))) (L : nat) :
  NoDup d.*1 →
  Forall (λ e, length e.2 = L) d →
  ∃ self' hs,
    backtest (init ic pct fx) (Frames d) = Ok self'
    ∧ Forall2 (λ e h, portfolio_history self' !! e.1 = Some h ∧ length h = L)
        d hs
    ∧ daily_portfolio_values self' = sum_series hs.
Proof.
  intros Hnodup Hlen. unfold backtest.
  set (self := init ic pct fx). set (n := length d).
  destruct (backtest_assets_histories n d self Hnodup)
    as (self' & Hrun & Hin & _ & Hd).
  exists self', (map (λ e, asset_values self (fresh_asset self n) e.2) d).
  split; [exact Hrun|]. split.
  - apply Forall2_fmap_r, Forall_Forall2_diag, Forall_forall.
    intros e He. split; [by apply Hin|].
    rewrite length_asset_values.
    rewrite Forall_forall in Hlen. by apply Hlen.
  - rewrite Hd. destruct d as [|e es]; [done|].
    inversion Hlen as [|? ? He Hes]; subst.
    cbn [fold_left map sum_series]. unfold absorb_asset at 2.
    rewrite absorb_all_append by (rewrite length_asset_values; cbn; lia).
    cbn [app]. apply (absorb_assets_sum _ _ (length e.2)); [done|].
    by rewrite length_asset_values.
Qed.
End Histories.

Lemma backtest_series_sums_histories_witness :
  ∃ self' hs,
    backtest Run.small (Frames [("A"%string, Run.one_buy); ("B"%string, Run.one_buy)])
    = Ok self'
    ∧ Forall2 (λ e h, portfolio_history self' !! e.1 = Some h ∧ length h = 1%nat)
        [("A"%string, Run.one_buy); ("B"%string, Run.one_buy)] hs
    ∧ daily_portfolio_values self' = sum_series hs.
Proof.
  apply (backtest_series_sums_histories binary64_numpy
           (initial_capital Run.small) (commission_pct Run.small)
           (commission_fixed Run.small)
           [("A"%string, Run.one_buy); ("B"%string, Run.one_buy)] 1).
  - apply NoDup_cons. split; [|apply NoDup_singleton].
    rewrite list_elem_of_singleton. discriminate.
  - repeat constructor.
Defined.

(** ** Runs of one asset in exact arithmetic *)

Section Holding.
Local Open Scope R_scope.

(** Cash or shares, never both, all along the rows. *)
Lemma asset_path_exclusive (self : Backtester xreal) c p pv tv pct fx rows :
  commission_pct self = Finite pct → commission_fixed self = Finite fx →
  Forall (λ r, r.1 ≠ 0) rows →
  c = 0 ∨ p = 0 →
  Forall (λ st, ∃ c' p', cash st = Finite c' ∧ positions st = Finite p'
                          ∧ (c' = 0 ∨ p' = 0))
    (asset_path self (mkAssetState (Finite c) (Finite p) pv tv)
       (map finite_row rows)).
Proof.
  intros Hpct Hfx Hrows. revert c p pv tv.
  induction Hrows as [|[pr sg] rows Hpr _ IH]; intros c p pv tv Hcp;
    [constructor|].
  cbn [map asset_path finite_row fst snd close signal].
  rewrite (traded_Finite _ _ _ _ _ _ _ pct fx) by done.
  unfold revalued. cbn [cash positions].
  pose proof (tradedR_exclusive pct fx (c, p) sg pr Hcp) as Hcp'.
  constructor.
  - by eexists _, _.
  - by apply IH.
Qed.

(** X10: the asset is long or flat, never both.  After a run on one frame of
    positive prices the asset holds no cash or no shares. *)
Theorem backtest_long_or_flat (c pct fx : R) (df : list (Row xreal)) :
  Forall priced_row df →
  ∃ self' st' c' p',
    backtest (init (Finite c) (Finite pct) (Finite fx)) (Frame df) = Ok self'
    ∧ assets_data self' !! "SINGLE_ASSET"%string = Some st'
    ∧ cash st' = Finite c' ∧ positions st' = Finite p'
    ∧ (c' = 0 ∨ p' = 0).
Proof.
  intros Hdf. destruct (priced_rows df Hdf) as (rows & -> & Hrows).
  destruct (backtest_frame xreal_numpy (Finite c) (Finite pct) (Finite fx)
              (map finite_row rows)) as (self' & Hrun & Hst & _).
  rewrite fresh_asset_single in Hst.
  pose proof (asset_path_exclusive (init (Finite c) (Finite pct) (Finite fx))
                c 0 (Finite 0) (Finite 0) pct fx rows eq_refl eq_refl Hrows
                (or_intror eq_refl)) as Hall.
  destruct (last _) as [st'|] eqn:Hlast.
  - apply last_Some_elem_of in Hlast.
    rewrite Forall_forall in Hall.
    destruct (Hall _ Hlast) as (c' & p' & Hc' & Hp' & Hcp).
    by exists self', st', c', p'.
  - exists self', (mkAssetState (Finite c) (Finite 0) (Finite 0) (Finite 0)), c, 0.
    repeat split; try done. by right.
Qed.

Lemma backtest_long_or_flat_witness :
  ∃ self' st' c' p',
    backtest (init (Finite 1000) (Finite 0.001) (Finite 1))
      (Frame [mkRow (Finite 100) 1; mkRow (Finite 110) (-1)]) = Ok self'
    ∧ assets_data self' !! "SINGLE_ASSET"%string = Some st'
    ∧ cash st' = Finite c' ∧ positions st' = Finite p'
    ∧ (c' = 0 ∨ p' = 0).
Proof.
  apply (backtest_long_or_flat 1000 0.001 1
           [mkRow (Finite 100) 1; mkRow (Finite 110) (-1)]).
  repeat constructor; [exists 100|exists 110]; cbn; split; (reflexivity || lra).
Defined.

(** Once the cash is spent, positive signals find nothing to do: the value
    follows the price. *)
Lemma valuesR_hold (pct fx shares : R) (rows : list (R * Z)) :
  Forall (λ r, (0 < r.2)%Z) rows →
  valuesR pct fx (0, shares) rows = map (λ r, shares * r.1) rows.
Proof.
  induction 1 as [|[pr sg] rows Hsg _ IH]; [done|].
  cbn [valuesR map fst snd]. cbn in Hsg. unfold tradedR. cbn [fst snd].
  rewrite Rltb_irrefl, (Zltb_nonneg sg) by lia.
  rewrite andb_false_r. cbn [andb fst snd]. rewrite IH. f_equal. lra.
Qed.

(** X11: buy and hold.  On one frame whose signals are all positive, the
    first row buys [(c - fee c) / p0] shares at its price [p0], no later row
    trades, and every entry of the combined series is that number of shares
    at the close price of its row. *)
Theorem backtest_buy_and_hold (c pct fx p0 : R) (s0 : Z) (rest : list (R * Z)) :
  0 < c →
  Forall (λ r, 0 < r.1 ∧ (0 < r.2)%Z) ((p0, s0) :: rest) →
  ∃ self',
    backtest (init (Finite c) (Finite pct) (Finite fx))
      (Frame (map finite_row ((p0, s0) :: rest))) = Ok self'
    ∧ daily_portfolio_values self'
      = map (λ r, Finite ((c - Rmax (c * pct) fx) / p0 * r.1))
          ((p0, s0) :: rest).
Proof.
  intros Hc Hrows.
  destruct (backtest_frame_values c pct fx ((p0, s0) :: rest))
    as (self' & Hrun & Hd).
  { eapply Forall_impl; [exact Hrows|]. intros r [Hr _]. lra. }
  exists self'. split; [exact Hrun|]. rewrite Hd.
  inversion Hrows as [|? ? [Hp0 Hs0] Hrest]; subst. cbn in Hp0, Hs0.
  cbn [valuesR]. unfold tradedR at 1 2 3. cbn [fst snd].
  rewrite (Zgtb_pos s0), (Rltb_true 0 c) by done. cbn [andb fst snd].
  rewrite valuesR_hold.
  - cbn [map fst]. rewrite map_map. f_equal; [f_equal; lra|].
    apply map_ext. intros r. f_equal. lra.
  - eapply Forall_impl; [exact Hrest|]. by intros r [_ Hr].
Qed.

Lemma backtest_buy_and_hold_witness :
  ∃ self',
    backtest (init (Finite 10000) (Finite 0.001) (Finite 1))
      (Frame (map finite_row [(100, 1%Z); (110, 1%Z)])) = Ok self'
    ∧ daily_portfolio_values self'
      = map (λ r, Finite ((10000 - Rmax (10000 * 0.001) 1) / 100 * r.1))
          [(100, 1%Z); (110, 1%Z)].
Proof.
  apply (backtest_buy_and_hold 10000 0.001 1 100 1 [(110, 1%Z)]).
  - lra.
  - repeat constructor; cbn; (lra || lia).
Defined.
End Holding.

(** ** The commission and the division of a buy *)

Section Fees.
Local Open Scope R_scope.

(** X12: the commission is never below the fixed fee nor below the
    proportional one, and with a non-negative rate it does not decrease
    when the trade value grows. *)
Theorem calculate_commission_floor (self : Backtester xreal) (pct fx v w : R) :
  commission_pct self = Finite pct → commission_fixed self = Finite fx →
  0 <= pct → v <= w →
  ∃ fv fw,
    calculate_commission self (Finite v) = Finite fv
    ∧ calculate_commission self (Finite w) = Finite fw
    ∧ fx <= fv ∧ v * pct <= fv ∧ fv <= fw.
Proof.
  intros Hpct Hfx Hrate Hvw.
  rewrite !(calculate_commission_Finite _ _ _ _ Hpct Hfx).
  eexists _, _. split; [reflexivity|]. split; [reflexivity|].
  split; [apply Rmax_r|]. split; [apply Rmax_l|].
  apply Rle_max_compat_r. by apply Rmult_le_compat_r.
Qed.

Lemma calculate_commission_floor_witness :
  ∃ fv fw,
    calculate_commission (account 0 0) (Finite 500) = Finite fv
    ∧ calculate_commission (account 0 0) (Finite 5000) = Finite fw
    ∧ 1 <= fv ∧ 500 * 0.001 <= fv ∧ fv <= fw.
Proof.
  apply (calculate_commission_floor (account 0 0) 0.001 1 500 5000);
    (reflexivity || lra).
Defined.

(** X13: on Python floats a call of [execute_trade] on a known asset fails
    in one case only: a buy (positive signal, cash above 0) at a close price
    equal to 0 raises [ZeroDivisionError]; every other call returns. *)
Theorem execute_trade_python_zero_price (self : Backtester xreal) asset st
    (sg : Z) (price : xreal) :
  assets_data self !! asset = Some st →
  if (sg >? 0)%Z && xltb (Finite 0) (cash st) && xeqb price (Finite 0)
  then @execute_trade xreal python_xreal self asset sg price
       = Raise ZeroDivisionError
  else ∃ self', @execute_trade xreal python_xreal self asset sg price = Ok self'.
Proof.
  intros Hk. unfold execute_trade.
  rewrite !(getitem_Some _ _ _ Hk). cbn [mbind result_bind py_and mret result_ret].
  change (fltb (of_Z 0) (cash st)) with (xltb (Finite 0) (cash st)).
  change (fltb (of_Z 0) (positions st)) with (xltb (Finite 0) (positions st)).
  destruct (sg >? 0)%Z; cbn [andb py_and].
  - destruct (xltb (Finite 0) (cash st)); cbn [andb mbind result_bind].
    + unfold truediv. cbn [zero_division python_xreal andb].
      change (feqb price (of_Z 0)) with (xeqb price (Finite 0)).
      destruct (xeqb price (Finite 0)); [done|].
      cbn [mbind result_bind].
      rewrite (modify_asset_Some _ _ _ _ Hk). cbn [mbind result_bind].
      rewrite modify_asset_insert. by eexists.
    + destruct (sg <? 0)%Z; cbn [py_and mbind result_bind];
        [|by eexists].
      destruct (xltb (Finite 0) (positions st)); cbn [mbind result_bind];
        [|by eexists].
      rewrite (modify_asset_Some _ _ _ _ Hk). cbn [mbind result_bind].
      rewrite modify_asset_insert. by eexists.
  - destruct (sg <? 0)%Z; cbn [py_and mbind result_bind]; [|by eexists].
    destruct (xltb (Finite 0) (positions st)); cbn [mbind result_bind];
      [|by eexists].
    rewrite (modify_asset_Some _ _ _ _ Hk). cbn [mbind result_bind].
    rewrite modify_asset_insert. by eexists.
Qed.

Lemma execute_trade_python_zero_price_witness :
  if (1 >? 0)%Z
     && xltb (Finite 0)
          (cash (mkAssetState (Finite 10000) (Finite 0) (Finite 0) (Finite 0)))
     && xeqb (Finite 0) (Finite 0)
  then @execute_trade xreal python_xreal (account 10000 0) "AAPL" 1 (Finite 0)
       = Raise ZeroDivisionError
  else ∃ self',
      @execute_trade xreal python_xreal (account 10000 0) "AAPL" 1 (Finite 0)
      = Ok self'.
Proof.
  apply (execute_trade_python_zero_price (account 10000 0) "AAPL"
           (mkAssetState (Finite 10000) (Finite 0) (Finite 0) (Finite 0))
           1 (Finite 0)).
  reflexivity.
Defined.
End Fees.

(** ** The Sharpe ratio *)

(** X14: the handler of [calculate_sharpe_ratio] is never entered.  Whatever
    the arguments and whichever the scalars, the call does what the bare
    division does: its only exception is [ZeroDivisionError], which
    [except RuntimeError] lets through. *)
Theorem calculate_sharpe_ratio_is_division {F} `{PyFloat F} (ar av rf : F) :
  calculate_sharpe_ratio ar av rf = truediv (fsub ar rf) av.
Proof.
  unfold calculate_sharpe_ratio, try_except, truediv.
  destruct (zero_division && feqb av (of_Z 0)); [|done].
  by rewrite decide_False.
Qed.

Section Sharpe.
Local Open Scope R_scope.

(** X15: with a finite volatility other than 0 the Sharpe ratio is the
    excess return over the volatility, on numpy scalars and on Python
    floats. *)
Theorem calculate_sharpe_ratio_nonzero_volatility (ar av rf : R) :
  av ≠ 0 →
  calculate_sharpe_ratio (Finite ar) (Finite av) (Finite rf)
  = Ok (Finite ((ar - rf) / av))
  ∧ @calculate_sharpe_ratio xreal python_xreal (Finite ar) (Finite av) (Finite rf)
    = Ok (Finite ((ar - rf) / av)).
Proof.
  intros Hav. unfold calculate_sharpe_ratio, truediv.
  cbn [zero_division xreal_float python_xreal andb].
  change (feqb (Finite av) (of_Z 0)) with (xeqb (Finite av) (Finite 0)).
  cbn [xeqb]. destruct (Req_dec_T av 0) as [|_]; [done|].
  change (fsub (Finite ar) (Finite rf)) with (Finite (ar - rf)).
  unfold try_except. split; f_equal; apply xdiv_Finite, Hav.
Qed.

Lemma calculate_sharpe_ratio_nonzero_volatility_witness :
  calculate_sharpe_ratio (Finite 0.2) (Finite 0.1) (Finite 0)
  = Ok (Finite ((0.2 - 0) / 0.1))
  ∧ @calculate_sharpe_ratio xreal python_xreal (Finite 0.2) (Finite 0.1) (Finite 0)
    = Ok (Finite ((0.2 - 0) / 0.1)).
Proof. apply (calculate_sharpe_ratio_nonzero_volatility 0.2 0.1 0). lra. Defined.
End Sharpe.

(** ** More on the maximum drawdown *)

Section Drawdown.
Local Open Scope R_scope.

Lemma drawdowns_above_total_loss (m : R) (vs : list R) :
  0 < m → Forall (λ v, 0 < v) vs →
  Forall (λ d, -1 < d) (drawdowns vs (running_maxima m vs)).
Proof.
  intros Hm Hvs. revert m Hm.
  induction Hvs as [|x vs Hx _ IH]; intros m Hm; [constructor|].
  cbn. pose proof (Rmax_l m x). constructor.
  - assert (0 < x / Rmax m x); [|lra]. apply Rdiv_lt_0_compat; lra.
  - apply IH. lra.
Qed.

(** X16: on a non-empty series of positive values the maximum drawdown is
    a number between -1 and 0: no more than the loss of the whole peak is
    ever reported. *)
Theorem calculate_maximum_drawdown_range (vs : list R) :
  vs ≠ [] → Forall (λ v, 0 < v) vs →
  ∃ d, calculate_maximum_drawdown (map Finite vs) = Finite d ∧ -1 <= d <= 0.
Proof.
  intros Hne Hpos. destruct vs as [|x vs]; [done|].
  inversion Hpos as [|? ? Hx Hvs]; subst.
  eexists. split; [by apply calculate_maximum_drawdown_Finite|].
  destruct (fold_left_Rmin_least (drawdowns vs (running_maxima x vs)) (x / x - 1))
    as [Hin Hleast].
  split.
  - apply elem_of_cons in Hin as [->|Hin].
    + replace (x / x) with 1 by (field; lra). lra.
    + pose proof (drawdowns_above_total_loss x vs Hx Hvs) as Hall.
      rewrite Forall_forall in Hall. by apply Rlt_le, Hall.
  - etrans; [apply Hleast, elem_of_cons; left; reflexivity|].
    replace (x / x) with 1 by (field; lra). lra.
Qed.

Lemma calculate_maximum_drawdown_range_witness :
  ∃ d,
    calculate_maximum_drawdown (map Finite [100; 120; 90; 130; 65]) = Finite d
    ∧ -1 <= d <= 0.
Proof.
  apply (calculate_maximum_drawdown_range [100; 120; 90; 130; 65]).
  - discriminate.
  - repeat constructor; lra.
Defined.

Lemma running_maxima_scale (k m : R) (vs : list R) :
  0 < k →
  running_maxima (k * m) (map (λ v, k * v) vs)
  = map (λ v, k * v) (running_maxima m vs).
Proof.
  intros Hk. revert m. induction vs as [|x vs IH]; intros m; [done|].
  cbn [map running_maxima]. rewrite RmaxRmult by lra. by rewrite IH.
Qed.

Lemma drawdowns_scale (k : R) (vs ms : list R) :
  0 < k → Forall (λ m, 0 < m) ms →
  drawdowns (map (λ v, k * v) vs) (map (λ v, k * v) ms) = drawdowns vs ms.
Proof.
  intros Hk Hms. revert vs.
  induction Hms as [|m ms Hm _ IH]; intros [|v vs]; try done.
  cbn [map drawdowns zip_with]. fold (drawdowns (map (λ v, k * v) vs)
                                         (map (λ v, k * v) ms)).
  fold (drawdowns vs ms). rewrite IH. f_equal. field. lra.
Qed.

(** X17: in exact arithmetic the maximum drawdown does not depend on the
    unit of the values: multiplying a series of positive values by [k > 0]
    leaves it as it is.  (On doubles the products are rounded.) *)
Theorem calculate_maximum_drawdown_scale (k : R) (vs : list R) :
  0 < k → Forall (λ v, 0 < v) vs →
  calculate_maximum_drawdown (map Finite (map (λ v, k * v) vs))
  = calculate_maximum_drawdown (map Finite vs).
Proof.
  intros Hk Hpos. destruct vs as [|x vs]; [done|].
  inversion Hpos as [|? ? Hx Hvs]; subst.
  change (map (λ v, k * v) (x :: vs)) with (k * x :: map (λ v, k * v) vs).
  rewrite (calculate_maximum_drawdown_Finite (k * x)) by nra.
  rewrite (calculate_maximum_drawdown_Finite x) by done.
  rewrite running_maxima_scale, drawdowns_scale by
    (done || by apply running_maxima_positive).
  do 2 f_equal. field. lra.
Qed.

Lemma calculate_maximum_drawdown_scale_witness :
  calculate_maximum_drawdown (map Finite (map (λ v, 100 * v) [1; 2; 1]))
  = calculate_maximum_drawdown (map Finite [1; 2; 1]).
Proof.
  apply (calculate_maximum_drawdown_scale 100 [1; 2; 1]).
  - lra.
  - repeat constructor; lra.
Defined.

Lemma running_maxima_app (m : R) (vs ws : list R) :
  running_maxima m (vs ++ ws)
  = running_maxima m vs
    ++ running_maxima (default m (last (running_maxima m vs))) ws.
Proof.
  revert m. induction vs as [|x vs IH]; intros m; [done|].
  cbn [app running_maxima]. rewrite IH, last_cons.
  by destruct (last (running_maxima (Rmax m x) vs)).
Qed.

Lemma drawdowns_app (vs ws ms ns : list R) :
  length vs = length ms →
  drawdowns (vs ++ ws) (ms ++ ns) = drawdowns vs ms ++ drawdowns ws ns.
Proof. intros Hlen. unfold drawdowns. by apply zip_with_app. Qed.

Lemma fold_left_Rmin_le (l : list R) (a : R) : fold_left Rmin l a <= a.
Proof.
  destruct (fold_left_Rmin_least l a) as [_ Hlb]. apply Hlb, elem_of_cons. tauto.
Qed.

(** X18: a further value cannot raise the maximum drawdown: on positive
    values, the drawdown of the series with one more value is at most that
    of the series without it. *)
Theorem calculate_maximum_drawdown_append (vs : list R) (v : R) :
  vs ≠ [] → Forall (λ v, 0 < v) vs → 0 < v →
  ∃ d d',
    calculate_maximum_drawdown (map Finite vs) = Finite d
    ∧ calculate_maximum_drawdown (map Finite (vs ++ [v])) = Finite d'
    ∧ d' <= d.
Proof.
  intros Hne Hpos Hv. destruct vs as [|x vs]; [done|].
  inversion Hpos as [|? ? Hx Hvs]; subst. cbn [app].
  rewrite !calculate_maximum_drawdown_Finite by done.
  eexists _, _. split; [reflexivity|]. split; [reflexivity|].
  rewrite running_maxima_app, drawdowns_app
    by by rewrite length_running_maxima.
  rewrite fold_left_app. apply fold_left_Rmin_le.
Qed.

Lemma calculate_maximum_drawdown_append_witness :
  ∃ d d',
    calculate_maximum_drawdown (map Finite [100; 120]) = Finite d
    ∧ calculate_maximum_drawdown (map Finite ([100; 120] ++ [90])) = Finite d'
    ∧ d' <= d.
Proof.
  apply (calculate_maximum_drawdown_append [100; 120] 90).
  - discriminate.
  - repeat constructor; lra.
  - lra.
Defined.
End Drawdown.

(** ** Volatility, the Sortino ratio and the total return at their edges *)

Section Edges.
Local Open Scope R_scope.

Lemma sum_list_squares_zero (m : R) (l : list R) :
  sum_list (map (λ x, (x - m)²) l) = 0 ↔ ∀ x, x ∈ l → x = m.
Proof.
  induction l as [|y l IH].
  - split; [|done]. intros _ x Hx. by inversion Hx.
  - change (sum_list (map (λ x, (x - m)²) (y :: l)))
      with ((y - m)² + sum_list (map (λ x, (x - m)²) l)).
    assert (0 <= sum_list (map (λ x, (x - m)²) l)) as Hrest.
    { rewrite <- sum_list_squares. apply sum_list_squares_nonneg. }
    pose proof (Rle_0_sqr (y - m)) as Hhead.
    split.
    + intros Hsum x Hx. apply elem_of_cons in Hx as [->|Hx].
      * assert ((y - m)² = 0) as Hy by lra.
        apply Rsqr_0_uniq in Hy. lra.
      * apply IH; [lra|done].
    + intros Hall.
      rewrite (proj2 IH) by (intros x Hx; apply Hall, elem_of_cons; tauto).
      rewrite (Hall y) by (apply elem_of_cons; tauto).
      unfold Rsqr. lra.
Qed.

Lemma mean_constant (x0 : R) (l : list R) :
  l ≠ [] → (∀ x, x ∈ l → x = x0) → mean l = x0.
Proof.
  intros Hne Hall. unfold mean.
  assert (sum_list l = INR (length l) * x0) as ->.
  { clear Hne. induction l as [|y l IH]; [cbn; lra|].
    change (sum_list (y :: l)) with (y + sum_list l).
    rewrite IH by (intros x Hx; apply Hall, elem_of_cons; tauto).
    rewrite (Hall y) by (apply elem_of_cons; tauto).
    cbn [length]. rewrite S_INR. lra. }
  field. apply not_0_INR. by destruct l.
Qed.

(** X19: the annualized volatility of finite returns, in exact arithmetic:
    a not-a-number value for fewer than two returns; for two or more a
    finite number, never negative, and 0 exactly when all the returns are
    equal.  (On doubles the mean is rounded, and equal returns can leave a
    residue.) *)
Theorem calculate_annualized_volatility_cases (rs : list R) :
  ((length rs ≤ 1)%nat →
   calculate_annualized_volatility (map Finite rs) = NaN)
  ∧ ((2 ≤ length rs)%nat →
     ∃ σ, calculate_annualized_volatility (map Finite rs) = Finite σ
          ∧ 0 <= σ
          ∧ (σ = 0 ↔ ∀ x y, x ∈ rs → y ∈ rs → x = y)).
Proof.
  unfold calculate_annualized_volatility. rewrite fsqrt_252. split.
  - intros Hfew. rewrite pd_std_few; [done|].
    by rewrite notna_Finite, length_map.
  - intros Hmany. rewrite pd_std_Finite by done.
    exists (sample_std rs * sqrt 252). split; [done|].
    assert (0 < sqrt 252) as H252 by (apply sqrt_lt_R0; lra).
    assert (0 < INR (length rs) - 1) as Hden.
    { assert (2 <= INR (length rs)); [|lra]. by apply (le_INR 2). }
    set (q := sum_list (map (λ x, (x - mean rs)²) rs)).
    assert (0 <= q) as Hq.
    { unfold q. rewrite <- sum_list_squares. apply sum_list_squares_nonneg. }
    assert (0 <= q / (INR (length rs) - 1)) as Hquot.
    { apply Rmult_le_pos; [done|]. by apply Rlt_le, Rinv_0_lt_compat. }
    assert (sample_std rs = sqrt (q / (INR (length rs) - 1))) as Hstd by done.
    pose proof (sqrt_pos (q / (INR (length rs) - 1))) as Hsqrt.
    split; [rewrite Hstd; nra|].
    assert (sample_std rs * sqrt 252 = 0 ↔ q = 0) as ->.
    { rewrite Hstd. split.
      - intros Hzero. assert (sqrt (q / (INR (length rs) - 1)) = 0) as Hs by nra.
        apply sqrt_eq_0 in Hs; [|done].
        apply (Rmult_eq_compat_r (INR (length rs) - 1)) in Hs.
        unfold Rdiv in Hs. rewrite Rmult_assoc, Rinv_l in Hs by lra. lra.
      - intros ->. unfold Rdiv. rewrite Rmult_0_l, sqrt_0. lra. }
    unfold q. rewrite sum_list_squares_zero. split.
    + intros Hmean x y Hx Hy. by rewrite (Hmean x), (Hmean y).
    + intros Hall x Hx. symmetry. apply mean_constant.
      * destruct rs; [cbn in Hmany; lia|done].
      * intros y Hy. by apply Hall.
Qed.

Lemma calculate_annualized_volatility_cases_witness :
  calculate_annualized_volatility (map Finite [0.1]) = NaN
  ∧ ∃ σ, calculate_annualized_volatility (map Finite [0.1; 0.1; 0.1]) = Finite σ
         ∧ 0 <= σ
         ∧ (σ = 0 ↔ ∀ x y, x ∈ [0.1; 0.1; 0.1] → y ∈ [0.1; 0.1; 0.1] → x = y).
Proof.
  split.
  - apply (proj1 (calculate_annualized_volatility_cases [0.1])). cbn. lia.
  - apply (proj2 (calculate_annualized_volatility_cases [0.1; 0.1; 0.1])).
    cbn. lia.
Defined.

Lemma xltb_zero_ne (x : xreal) :
  xltb (Finite 0) x = true → xeqb x (Finite 0) = false.
Proof.
  destruct x as [r| | |]; cbn; try done.
  unfold Rltb. destruct (Rlt_dec 0 r); [|done].
  intros _. destruct (Req_dec_T r 0); [lra|done].
Qed.

(** X20: [calculate_sortino_ratio] raises nothing, whatever the returns
    (not-a-number and infinite ones included) and whichever the scalars: the
    division is reached only when the divisor is above 0. *)
Theorem calculate_sortino_ratio_returns (rs : list xreal) (ar rf : xreal) :
  (∃ v, calculate_sortino_ratio rs ar rf = Ok v)
  ∧ (∃ v, @calculate_sortino_ratio xreal python_xreal rs ar rf = Ok v).
Proof.
  unfold calculate_sortino_ratio. split.
  - destruct (fltb _ _); [|by eexists].
    rewrite (truediv_numpy xreal_numpy). by eexists.
  - set (dv := fmul _ _).
    change (fltb (of_Z 0) dv) with (xltb (Finite 0) dv).
    destruct (xltb (Finite 0) dv) eqn:Hdv; [|by eexists].
    unfold truediv. change (feqb dv (of_Z 0)) with (xeqb dv (Finite 0)).
    rewrite (xltb_zero_ne _ Hdv), andb_false_r. by eexists.
Qed.

(** X22: with an initial capital of 0 the total return is never a number.
    On numpy scalars it is a not-a-number value when the final value is 0
    too and an infinity otherwise (of the sign of the final value, or of the
    opposite one when the capital is the negative zero of the doubles); on
    Python floats the call raises [ZeroDivisionError]. *)
Theorem calculate_total_return_zero_capital (final : R) :
  (∃ v,
     calculate_total_return (Finite final) (Finite 0) = Ok v
     ∧ (final = 0 → v = NaN)
     ∧ (final ≠ 0 → v = PInf ∨ v = NInf))
  ∧ @calculate_total_return xreal python_xreal (Finite final) (Finite 0)
    = Raise ZeroDivisionError.
Proof.
  unfold calculate_total_return, truediv. split.
  - cbn. unfold by_sign. destruct (Req_dec_T 0 0); [|done].
    destruct (Rlt_dec 0 final), (Rlt_dec final 0);
      (eexists; split; [reflexivity|]; split; intros ?; (lra || tauto)).
  - cbn. by destruct (Req_dec_T 0 0).
Qed.
End Edges.

(** ** The annualized return *)

(** X23: [calculate_annualized_return] raises [ZeroDivisionError] exactly
    when [num_days] is 0, whatever the return and whichever the scalars: the
    exponent [252 / num_days] is a division of Python integers. *)
Theorem calculate_annualized_return_zero_days {F} `{PyFloat F} `{PyPower F}
    (total_return : F) (num_days : Z) :
  calculate_annualized_return total_return num_days = Raise ZeroDivisionError
  ↔ num_days = 0%Z.
Proof.
  unfold calculate_annualized_return, int_truediv.
  destruct (Z.eqb_spec num_days 0) as [->|Hne]; cbn; split; done.
Qed.

Section Annual.
Local Open Scope R_scope.

Lemma Int_part_1 : Int_part 1 = 1%Z.
Proof. symmetry. apply Int_part_spec. lra. Qed.

Lemma int_truediv_Finite (a b : Z) :
  b ≠ 0%Z → int_truediv a b = Ok (Finite (IZR a / IZR b)).
Proof.
  intros Hb. unfold int_truediv.
  destruct (Z.eqb_spec b 0) as [|_]; [done|].
  change (of_Z a / of_Z b)%py with (Finite (IZR a) / Finite (IZR b))%py.
  rewrite xdiv_Finite; [done|]. by apply not_0_IZR.
Qed.

(** X24: in exact arithmetic, over 252 days the annualized return is the
    total return itself, for every finite total return (the exponent is 1).
    (On doubles [1 + r] is rounded before the 1 is taken off again.) *)
Theorem calculate_annualized_return_one_year (r : R) :
  calculate_annualized_return (Finite r) 252 = Ok (Finite r).
Proof.
  unfold calculate_annualized_return. rewrite int_truediv_Finite by done.
  cbn [mbind result_bind mret result_ret].
  replace (IZR 252 / IZR 252) with 1 by (field; lra).
  change (of_Z 1 + Finite r)%py with (Finite (1 + r)).
  change (fpow (Finite (1 + r)) (Finite 1)) with (xpow (Finite (1 + r)) (Finite 1)).
  unfold xpow. destruct (Req_dec_T 1 0) as [|_]; [lra|].
  destruct (Rlt_dec 0 (1 + r)) as [Hpos|Hnpos].
  - rewrite Rpower_1 by done. cbn. do 2 f_equal. lra.
  - destruct (Req_dec_T (1 + r) 0) as [Hzero|Hneg].
    + destruct (Rlt_dec 0 1); [|lra]. cbn. do 2 f_equal. lra.
    + unfold is_int. rewrite Int_part_1.
      destruct (Req_dec_T 1 1); [|done]. cbn [Z.odd].
      rewrite Rpower_1 by lra. cbn. do 2 f_equal. lra.
Qed.

Lemma Rpower_vs_one (a e : R) :
  0 < a → 0 < e →
  (1 < Rpower a e ↔ 1 < a) ∧ (Rpower a e = 1 ↔ a = 1).
Proof.
  intros Ha He. unfold Rpower.
  destruct (Rtotal_order a 1) as [Hlt|[->|Hgt]].
  - assert (ln a < 0) as Hln by (rewrite <- ln_1; by apply ln_increasing).
    assert (exp (e * ln a) < 1).
    { rewrite <- exp_0. apply exp_increasing. nra. }
    split; split; lra.
  - rewrite ln_1, Rmult_0_r, exp_0. split; split; lra.
  - assert (0 < ln a) as Hln by (rewrite <- ln_1; apply ln_increasing; lra).
    assert (1 < exp (e * ln a)).
    { rewrite <- exp_0. apply exp_increasing. nra. }
    split; split; lra.
Qed.

(** X25: in exact arithmetic annualizing keeps the sign.  For a total
    return above -1 over a positive number of days, the annualized return is
    a finite number above -1, positive exactly when the total return is, and
    0 exactly when it is.  (On doubles the power can round to 1, underflow
    to 0 or overflow.) *)
Theorem calculate_annualized_return_sign (r : R) (num_days : Z) :
  -1 < r → (0 < num_days)%Z →
  ∃ q,
    calculate_annualized_return (Finite r) num_days = Ok (Finite q)
    ∧ -1 < q ∧ (0 < q ↔ 0 < r) ∧ (q = 0 ↔ r = 0).
Proof.
  intros Hr Hdays. unfold calculate_annualized_return.
  rewrite int_truediv_Finite by lia. cbn [mbind result_bind mret result_ret].
  assert (0 < IZR 252 / IZR num_days) as He.
  { apply Rdiv_lt_0_compat; [lra|]. by apply IZR_lt. }
  set (e := IZR 252 / IZR num_days) in *.
  change (of_Z 1 + Finite r)%py with (Finite (1 + r)).
  change (fpow (Finite (1 + r)) (Finite e)) with (xpow (Finite (1 + r)) (Finite e)).
  unfold xpow. destruct (Req_dec_T e 0) as [|_]; [lra|].
  destruct (Rlt_dec 0 (1 + r)) as [Hpos|]; [|lra].
  exists (Rpower (1 + r) e - 1). split; [done|].
  destruct (Rpower_vs_one (1 + r) e Hpos He) as [Hgt Heq].
  assert (0 < Rpower (1 + r) e) by apply exp_pos.
  split; [lra|]. split; split; intros ?.
  - assert (1 < 1 + r) by (apply Hgt; lra). lra.
  - assert (1 < Rpower (1 + r) e) by (apply Hgt; lra). lra.
  - assert (1 + r = 1) by (apply Heq; lra). lra.
  - assert (Rpower (1 + r) e = 1) by (apply Heq; lra). lra.
Qed.

Lemma calculate_annualized_return_sign_witness :
  ∃ q,
    calculate_annualized_return (Finite 0.2076) 4 = Ok (Finite q)
    ∧ -1 < q ∧ (0 < q ↔ 0 < 0.2076) ∧ (q = 0 ↔ 0.2076 = 0).
Proof.
  apply (calculate_annualized_return_sign 0.2076 4); (lra || lia).
Defined.
End Annual.

(** ** The report of a run *)

Section Report.
Context {F : Type} `{PyFloat F} `{PyPower F}.
Hypothesis numpy_scalars : zero_division = false.
Local Open Scope py_scope.

(** The numbers of the report, when there is a portfolio history. *)
Lemma calculate_performance_numbers (self : Backtester F) (v : F) (vs : list F) :
  daily_portfolio_values self = v :: vs →
  ∃ final annualized_return sortino_ratio,
    last (v :: vs) = Some final
    ∧ calculate_annualized_return (final / initial_capital self - of_Z 1)
        (Z.of_nat (length (v :: vs)))
      = Ok annualized_return
    ∧ calculate_sortino_ratio (notna (pd_pct_change (v :: vs)))
        annualized_return (of_Z 0)
      = Ok sortino_ratio
    ∧ calculate_performance self
      = Ok (Some (mkReport final
                    (final / initial_capital self - of_Z 1)
                    annualized_return
                    (calculate_annualized_volatility
                       (notna (pd_pct_change (v :: vs))))
                    ((annualized_return - of_Z 0)
                     / calculate_annualized_volatility
                         (notna (pd_pct_change (v :: vs))))
                    sortino_ratio
                    (calculate_maximum_drawdown (v :: vs)))).
Proof.
  intros Hd. unfold calculate_performance. rewrite Hd.
  unfold iloc_last.
  destruct (last (v :: vs)) as [final|] eqn:Hlast;
    [|by apply last_None in Hlast].
  cbn [mbind result_bind mret result_ret].
  unfold calculate_total_return. rewrite (truediv_numpy numpy_scalars).
  cbn [mbind result_bind mret result_ret].
  unfold calculate_annualized_return at 2, int_truediv.
  unfold calculate_annualized_return at 1, int_truediv.
  destruct (Z.eqb_spec (Z.of_nat (length (v :: vs))) 0) as [Hlen|_];
    [cbn in Hlen; lia|].
  cbn [mbind result_bind mret result_ret].
  unfold calculate_sharpe_ratio. rewrite (truediv_numpy numpy_scalars).
  cbn [try_except].
  assert (∃ s, calculate_sortino_ratio (notna (pd_pct_change (v :: vs)))
                 (fpow (of_Z 1 + (final / initial_capital self - of_Z 1))
                    (of_Z 252 / of_Z (Z.of_nat (length (v :: vs))))
                  - of_Z 1) (of_Z 0) = Ok s) as [s Hs].
  { unfold calculate_sortino_ratio.
    destruct (fltb _ _); [|by eexists].
    rewrite (truediv_numpy numpy_scalars). by eexists. }
  rewrite Hs. cbn [mbind result_bind mret result_ret].
  by eexists final, _, s.
Qed.

(** X26: on numpy scalars [calculate_performance] raises nothing, and it
    gives no report exactly when there is no portfolio history: the guard
    on the empty list is what keeps [252 / num_days] and [iloc[-1]] from
    raising. *)
Theorem calculate_performance_returns (self : Backtester F) :
  ∃ report,
    calculate_performance self = Ok report
    ∧ (report = None ↔ daily_portfolio_values self = []).
Proof.
  destruct (daily_portfolio_values self) as [|v vs] eqn:Hd.
  - exists None. unfold calculate_performance. by rewrite Hd.
  - destruct (calculate_performance_numbers self v vs Hd)
      as (final & ar & s & _ & _ & _ & Hrun).
    eexists. split; [exact Hrun|]. split; done.
Qed.
End Report.

Lemma calculate_performance_returns_witness :
  ∃ report,
    calculate_performance
      (mkBacktester (Finite 1000) (Finite 0.001) (Finite 1) ∅ ∅
         [Finite 1000; Finite 1100])
    = Ok report
    ∧ (report = None
       ↔ daily_portfolio_values
           (mkBacktester (Finite 1000) (Finite 0.001) (Finite 1) ∅ ∅
              [Finite 1000; Finite 1100]) = []).
Proof.
  apply (calculate_performance_returns xreal_numpy).
Defined.

Section Reports.
Local Open Scope R_scope.

Lemma length_notna_le (l : list xreal) : (length (notna l) ≤ length l)%nat.
Proof.
  unfold notna. induction l as [|x l IH]; [done|].
  cbn [List.filter]. destruct (negb (is_nan x)); cbn [length]; lia.
Qed.

Lemma length_returns (v : xreal) (vs : list xreal) :
  (length (notna (pd_pct_change (v :: vs))) ≤ length vs)%nat.
Proof.
  unfold pd_pct_change.
  change (notna (fnan :: ?l)) with (notna l).
  etrans; [apply length_notna_le|].
  rewrite length_zip_with. cbn [length]. lia.
Qed.

Lemma xdiv_NaN_r (x : xreal) : (x / NaN)%py = NaN.
Proof. by destruct x. Qed.

Lemma calculate_sortino_ratio_few (rs : list xreal) (ar rf : xreal) :
  (length rs ≤ 1)%nat → calculate_sortino_ratio rs ar rf = Ok NaN.
Proof.
  intros Hlen. unfold calculate_sortino_ratio.
  rewrite pd_std_few; [done|].
  etrans; [apply length_notna_le|]. etrans; [|exact Hlen].
  clear. induction rs as [|x l IH]; [done|].
  cbn [List.filter]. destruct (fltb x _); cbn [length]; lia.
Qed.

(** X21: with fewer than two negative returns the Sortino ratio is the
    not-a-number sentinel, whatever the other returns (infinite and
    not-a-number ones included), the annualized return and the scalars: the
    deviation of fewer than two values is not a number, and no comparison
    with it holds. *)
Theorem calculate_sortino_ratio_few_negatives (rs : list xreal) (ar rf : xreal) :
  (length (List.filter (λ r, xltb r (Finite 0)) rs) ≤ 1)%nat →
  calculate_sortino_ratio rs ar rf = Ok NaN
  ∧ @calculate_sortino_ratio xreal python_xreal rs ar rf = Ok NaN.
Proof.
  intros Hfew. unfold calculate_sortino_ratio. split.
  - rewrite pd_std_few; [done|].
    etrans; [apply length_notna_le|]. exact Hfew.
  - rewrite (@pd_std_few xreal python_xreal); [done|].
    etrans; [apply length_notna_le|]. exact Hfew.
Qed.

Lemma calculate_sortino_ratio_few_negatives_witness :
  calculate_sortino_ratio [Finite (-0.02); Finite 0.01; PInf; NaN]
    (Finite 0.1) (Finite 0)
  = Ok NaN
  ∧ @calculate_sortino_ratio xreal python_xreal
      [Finite (-0.02); Finite 0.01; PInf; NaN] (Finite 0.1) (Finite 0)
    = Ok NaN.
Proof.
  apply (calculate_sortino_ratio_few_negatives
           [Finite (-0.02); Finite 0.01; PInf; NaN] (Finite 0.1) (Finite 0)).
  cbn [List.filter xltb]. unfold Rltb. decide_reals. cbn. lia.
Defined.

(** X27: a run of one or two records has no risk figures.  With a
    portfolio history of at most two values, [calculate_performance]
    reports a not-a-number annualized volatility, Sharpe ratio and Sortino
    ratio, whatever the values are. *)
Theorem calculate_performance_short_run (self : Backtester xreal) :
  daily_portfolio_values self ≠ [] →
  (length (daily_portfolio_values self) ≤ 2)%nat →
  ∃ report,
    calculate_performance self = Ok (Some report)
    ∧ report_annualized_volatility report = NaN
    ∧ report_sharpe_ratio report = NaN
    ∧ report_sortino_ratio report = NaN.
Proof.
  intros Hne Hlen.
  destruct (daily_portfolio_values self) as [|v vs] eqn:Hd; [done|].
  destruct (calculate_performance_numbers xreal_numpy self v vs Hd)
    as (final & ar & s & _ & _ & Hs & Hrun).
  assert (length (notna (pd_pct_change (v :: vs))) ≤ 1)%nat as Hfew.
  { etrans; [apply length_returns|]. cbn in Hlen. lia. }
  assert (calculate_annualized_volatility (notna (pd_pct_change (v :: vs)))
          = NaN) as Hvol.
  { unfold calculate_annualized_volatility. rewrite pd_std_few; [done|].
    etrans; [apply length_notna_le|]. exact Hfew. }
  rewrite calculate_sortino_ratio_few in Hs by done.
  injection Hs as <-.
  eexists. split; [exact Hrun|].
  cbn [report_annualized_volatility report_sharpe_ratio report_sortino_ratio].
  rewrite Hvol. split; [done|]. split; [apply xdiv_NaN_r|done].
Qed.

Lemma calculate_performance_short_run_witness :
  ∃ report,
    calculate_performance
      (mkBacktester (Finite 1000) (Finite 0.001) (Finite 1) ∅ ∅
         [Finite 1000; Finite 1100])
    = Ok (Some report)
    ∧ report_annualized_volatility report = NaN
    ∧ report_sharpe_ratio report = NaN
    ∧ report_sortino_ratio report = NaN.
Proof.
  apply (calculate_performance_short_run
           (mkBacktester (Finite 1000) (Finite 0.001) (Finite 1) ∅ ∅
              [Finite 1000; Finite 1100])).
  - done.
  - cbn. lia.
Defined.
End Reports.

Section FlatReport.
Local Open Scope R_scope.

Lemma map_Finite_replicate (n : nat) (x : R) :
  map Finite (replicate n x) = replicate n (Finite x).
Proof. induction n as [|n IH]; [done|]. cbn. by rewrite IH. Qed.

Lemma pd_pct_change_constant (c : R) (n : nat) :
  c ≠ 0 →
  pd_pct_change (replicate (S n) (Finite c))
  = NaN :: map Finite (replicate n 0).
Proof.
  intros Hc. unfold pd_pct_change. cbn [replicate]. f_equal.
  induction n as [|n IH]; [done|].
  cbn [replicate zip_with map]. rewrite xdiv_Finite by done. f_equal.
  - cbn. f_equal. field. done.
  - exact IH.
Qed.

Lemma sample_std_zeros (n : nat) : sample_std (replicate n 0) = 0.
Proof.
  unfold sample_std.
  assert (sum_list (map (λ x, (x - mean (replicate n 0))²) (replicate n 0)) = 0)
    as ->.
  { apply sum_list_squares_zero. intros x Hx.
    apply elem_of_replicate in Hx as [-> Hn].
    symmetry. apply mean_constant; [by destruct n|].
    by intros y [-> _]%elem_of_replicate. }
  unfold Rdiv. by rewrite Rmult_0_l, sqrt_0.
Qed.

Lemma calculate_annualized_volatility_zeros (n : nat) :
  calculate_annualized_volatility (map Finite (replicate n 0))
  = if (n <=? 1)%nat then NaN else Finite 0.
Proof.
  unfold calculate_annualized_volatility.
  destruct (Nat.leb_spec n 1) as [Hfew|Hmany].
  - rewrite pd_std_few; [done|].
    by rewrite notna_Finite, length_map, length_replicate.
  - rewrite pd_std_Finite by (rewrite length_replicate; lia).
    rewrite fsqrt_252, sample_std_zeros. cbn. f_equal. lra.
Qed.

Lemma calculate_sortino_ratio_zeros (n : nat) (ar : xreal) :
  calculate_sortino_ratio (map Finite (replicate n 0)) ar (of_Z 0) = Ok NaN.
Proof.
  unfold calculate_sortino_ratio.
  rewrite negative_returns_Finite, negatives_none; [done|].
  apply Forall_forall. intros x [-> _]%elem_of_replicate. lra.
Qed.

Lemma calculate_annualized_return_zero (num_days : Z) :
  num_days ≠ 0%Z →
  calculate_annualized_return (Finite 0) num_days = Ok (Finite 0).
Proof.
  intros Hdays. unfold calculate_annualized_return.
  rewrite int_truediv_Finite by done.
  cbn [mbind result_bind mret result_ret].
  set (e := IZR 252 / IZR num_days).
  change (of_Z 1 + Finite 0)%py with (Finite (1 + 0)).
  change (fpow (Finite (1 + 0)) (Finite e)) with (xpow (Finite (1 + 0)) (Finite e)).
  unfold xpow. destruct (Req_dec_T e 0) as [|_].
  - cbn. do 2 f_equal. lra.
  - destruct (Rlt_dec 0 (1 + 0)); [|lra].
    replace (1 + 0) with 1 by lra.
    unfold Rpower. rewrite ln_1, Rmult_0_r, exp_0. cbn. do 2 f_equal. lra.
Qed.

Lemma calculate_maximum_drawdown_constant (c : R) (n : nat) :
  0 < c →
  calculate_maximum_drawdown (replicate (S n) (Finite c)) = Finite 0.
Proof.
  intros Hc. rewrite <- map_Finite_replicate. cbn [replicate].
  rewrite calculate_maximum_drawdown_Finite by done.
  replace (c / c - 1) with 0 by (field; lra). f_equal.
  assert (Forall (λ d, d = 0)
            (drawdowns (replicate n c) (running_maxima c (replicate n c))))
    as Hzero.
  { apply drawdowns_zero_sorted; [done|].
    change (c :: replicate n c) with (replicate (S n) c).
    clear. induction n as [|n IH]; [repeat constructor|].
    cbn [replicate] in *. constructor; [done|]. constructor. lra. }
  induction Hzero as [|d ds -> _ IH]; [done|].
  cbn [fold_left]. rewrite Rmin_left by lra. done.
Qed.

(** X28: the report of a strategy that never trades.  After a run on one
    frame whose signals are all non-positive, from a positive capital,
    [calculate_performance] reports the capital as the final value, a total
    and an annualized return of 0, no drawdown, a volatility of 0 (not a
    number for fewer than three records) and a not-a-number Sharpe and
    Sortino ratio. *)
Theorem flat_run_performance (c : R) (pct fx : xreal) (df : list (Row xreal)) :
  0 < c → df ≠ [] → Forall flat_row df →
  ∃ self' report,
    backtest (init (Finite c) pct fx) (Frame df) = Ok self'
    ∧ calculate_performance self' = Ok (Some report)
    ∧ report_final_value report = Finite c
    ∧ report_total_return report = Finite 0
    ∧ report_annualized_return report = Finite 0
    ∧ report_annualized_volatility report
      = (if (length df <=? 2)%nat then NaN else Finite 0)
    ∧ report_sharpe_ratio report = NaN
    ∧ report_sortino_ratio report = NaN
    ∧ report_max_drawdown report = Finite 0.
Proof.
  intros Hc Hne Hflat.
  pose proof (backtest_asset_state xreal_numpy 1 (init (Finite c) pct fx)
                "SINGLE_ASSET" df) as Hback.
  set (self' := mkBacktester _ _ _ _ _ _) in Hback.
  assert (backtest (init (Finite c) pct fx) (Frame df) = Ok self') as Hbacktest.
  { unfold backtest. cbn [for_each length]. by rewrite Hback. }
  clear Hback.
  assert (daily_portfolio_values self' = replicate (length df) (Finite c))
    as Hd.
  { unfold self', absorb_asset.
    cbn [daily_portfolio_values init snd].
    rewrite absorb_all_append by (cbn; by rewrite length_asset_values).
    cbn [app]. rewrite fresh_asset_single. unfold asset_values.
    rewrite flat_path by done. clear.
    induction (length df) as [|n IH]; [done|]. cbn. by rewrite IH. }
  destruct (length df) as [|n] eqn:Hlen; [by destruct df|].
  destruct (calculate_performance_numbers xreal_numpy self' (Finite c)
              (replicate n (Finite c)) Hd)
    as (final & ar & s & Hlast & Har & Hs & Hrun).
  change (Finite c :: replicate n (Finite c))
    with (replicate (S n) (Finite c)) in *.
  rewrite replicate_S_end, last_snoc in Hlast. injection Hlast as <-.
  change (initial_capital self') with (Finite c) in *.
  assert ((Finite c / Finite c - of_Z 1)%py = Finite 0) as Htotal.
  { rewrite xdiv_Finite by lra. cbn. f_equal. field. lra. }
  rewrite Htotal in *.
  rewrite calculate_annualized_return_zero in Har by (rewrite length_replicate; lia).
  injection Har as <-.
  rewrite pd_pct_change_constant in * by lra.
  change (notna (NaN :: ?l)) with (notna l) in *.
  rewrite notna_Finite in *.
  rewrite calculate_sortino_ratio_zeros in Hs. injection Hs as <-.
  rewrite calculate_annualized_volatility_zeros in Hrun.
  rewrite calculate_maximum_drawdown_constant in Hrun by done.
  eexists self', _. split; [exact Hbacktest|]. split; [exact Hrun|].
  cbn [report_final_value report_total_return report_annualized_return
       report_annualized_volatility report_sharpe_ratio report_sortino_ratio
       report_max_drawdown].
  change (S n <=? 2)%nat with (n <=? 1)%nat.
  repeat split.
  destruct (n <=? 1)%nat; [done|].
  cbn. destruct (Req_dec_T 0 0) as [_|]; [|done].
  unfold by_sign. destruct (Rlt_dec 0 (0 + - 0)); [lra|].
  destruct (Rlt_dec (0 + - 0) 0); [lra|done].
Qed.

Lemma flat_run_performance_witness :
  ∃ self' report,
    backtest (init (Finite 10000) (Finite 0.001) (Finite 1))
      (Frame [mkRow (Finite 100) 0; mkRow (Finite 110) (-1);
              mkRow (Finite 90) 0])
    = Ok self'
    ∧ calculate_performance self' = Ok (Some report)
    ∧ report_final_value report = Finite 10000
    ∧ report_total_return report = Finite 0
    ∧ report_annualized_return report = Finite 0
    ∧ report_annualized_volatility report
      = (if (length [mkRow (Finite 100) 0; mkRow (Finite 110) (-1);
                     mkRow (Finite 90) 0] <=? 2)%nat
         then NaN else Finite 0)
    ∧ report_sharpe_ratio report = NaN
    ∧ report_sortino_ratio report = NaN
    ∧ report_max_drawdown report = Finite 0.
Proof.
  apply (flat_run_performance 10000 (Finite 0.001) (Finite 1)
           [mkRow (Finite 100) 0; mkRow (Finite 110) (-1);
            mkRow (Finite 90) 0]).
  - lra.
  - done.
  - repeat constructor.
    + exists 100. cbn. repeat split; (lra || lia).
    + exists 110. cbn. repeat split; (lra || lia).
    + exists 90. cbn. repeat split; (lra || lia).
Defined.
End FlatReport.
